(** * java.lang.StrictMath native bindings (luni/src/main/native/java_lang_StrictMath.c)

    A shallow embedding of the JNI binding layer of [java.lang.StrictMath]:
    the delegating wrappers around fdlibm, the hand-written [jnextafterf]
    and the registration table [gMethods], together with the IEEE-754
    binary32 reading of the bit patterns that [jnextafterf] manipulates. *)

From Stdlib Require Import ZArith QArith Qabs Bool List String Lia.
Import ListNotations.
Local Open Scope Z_scope.

(** ** Machine representation

    A [jfloat] is carried as its raw 32-bit pattern, an integer in
    [0, 2^32).  A [jint] is a 32-bit two's-complement integer, an integer
    in [-2^31, 2^31).  A [jdouble] is carried as its raw 64-bit pattern. *)

Definition jfloat := Z.
Definition jint := Z.
Definition jdouble := Z.

Definition is_jfloat (b : jfloat) : Prop := 0 <= b < 2 ^ 32.
Definition is_jint (h : jint) : Prop := - 2 ^ 31 <= h < 2 ^ 31.

(** [*(jint* )&arg]: the bits of a float read as a signed integer. *)
Definition jint_of_jfloat (arg : jfloat) : jint :=
  if arg mod 2 ^ 32 <? 2 ^ 31 then arg mod 2 ^ 32 else arg mod 2 ^ 32 - 2 ^ 32.

(** [*(jint* )&arg = h]: a signed integer stored as the bits of a float. *)
Definition jfloat_of_jint (h : jint) : jfloat := h mod 2 ^ 32.

(** Conversion of a [jint] to [unsigned int], as happens when it meets the
    unsigned literal [0x80000000]. *)
Definition uint_of_jint (h : jint) : Z := h mod 2 ^ 32.

(** Conversion of an [unsigned int] back to [jint] on assignment. *)
Definition jint_of_uint (u : Z) : jint :=
  if u mod 2 ^ 32 <? 2 ^ 31 then u mod 2 ^ 32 else u mod 2 ^ 32 - 2 ^ 32.

(** The result of a [jint] addition or subtraction, reduced to 32 bits
    (two's-complement wrap-around). *)
Definition jint_wrap (z : Z) : jint := (z + 2 ^ 31) mod 2 ^ 32 - 2 ^ 31.

(** ** jnextafterf *)

(** The branch test [(hx > 0) ^ (hx > hy)]. *)
Definition away_test (hx hy : jint) : bool := xorb (0 <? hx) (hy <? hx).

Definition jnextafterf (arg1 arg2 : jfloat) : jfloat :=
  let hx := jint_of_jfloat arg1 in
  let hy := jint_of_jfloat arg2 in
  if Z.land hx 0x7fffffff =? 0 then
    (* arg1 == 0 *)
    jfloat_of_jint (jint_of_uint (Z.lor (Z.land (uint_of_jint hy) 0x80000000) 0x1))
  else
    let hx' :=
      if away_test hx hy then jint_wrap (hx + 1) else jint_wrap (hx - 1) in
    jfloat_of_jint hx'.

(** ** IEEE-754 binary32 reading of a bit pattern *)

Definition sign_of (b : jfloat) : bool := Z.testbit b 31.
Definition exponent_of (b : jfloat) : Z := Z.land (Z.shiftr b 23) 0xff.
Definition mantissa_of (b : jfloat) : Z := Z.land b 0x7fffff.
Definition magnitude_of (b : jfloat) : Z := Z.land b 0x7fffffff.

Definition is_nan (b : jfloat) : bool :=
  (exponent_of b =? 255) && negb (mantissa_of b =? 0).
Definition is_inf (b : jfloat) : bool :=
  (exponent_of b =? 255) && (mantissa_of b =? 0).
Definition is_finite (b : jfloat) : bool := negb (exponent_of b =? 255).
Definition is_zero (b : jfloat) : bool := magnitude_of b =? 0.

(** The absolute value of a pattern, scaled by 2^149 so that it is an
    integer: a subnormal is [m * 2^-149], a normal number
    [(2^23 + m) * 2^(e - 150)]. *)
Definition scaled_magnitude (b : jfloat) : Z :=
  let e := exponent_of b in
  let m := mantissa_of b in
  if e =? 0 then m else (2 ^ 23 + m) * 2 ^ (e - 1).

Inductive fval : Type :=
| NaN : fval
| Inf (negative : bool) : fval
| Fin (q : Q) : fval.

Definition f32_value (b : jfloat) : fval :=
  if exponent_of b =? 255 then
    if mantissa_of b =? 0 then Inf (sign_of b) else NaN
  else
    Fin ((if sign_of b then - scaled_magnitude b else scaled_magnitude b)
           # (2 ^ 149)).

Definition Qltb (p q : Q) : bool :=
  Qnum p * QDen q <? Qnum q * QDen p.

(** IEEE comparison [a < b]: false as soon as one side is a NaN. *)
Definition flt (a b : fval) : bool :=
  match a, b with
  | NaN, _ => false
  | _, NaN => false
  | Inf true, Inf true => false
  | Inf true, _ => true
  | _, Inf true => false
  | Inf false, _ => false
  | Fin _, Inf false => true
  | Fin p, Fin q => Qltb p q
  end.

Definition fabs (a : fval) : fval :=
  match a with
  | NaN => NaN
  | Inf _ => Inf false
  | Fin q => Fin (Qabs q)
  end.

(** Negation of a float: the sign bit flipped. *)
Definition fneg (b : jfloat) : jfloat := Z.lxor b 0x80000000.

(** Numeric [x < y] and [|x| < |y|] on bit patterns. *)
Definition f32_lt (x y : jfloat) : bool := flt (f32_value x) (f32_value y).
Definition f32_abs_lt (x y : jfloat) : bool :=
  flt (fabs (f32_value x)) (fabs (f32_value y)).

(** [r] is the immediate representable successor of [x]. *)
Definition is_successor (x r : jfloat) : Prop :=
  f32_lt x r = true /\
  forall z, is_jfloat z -> ~ (f32_lt x z = true /\ f32_lt z r = true).

Definition pos_zero : jfloat := 0x00000000.
Definition neg_zero : jfloat := 0x80000000.
Definition pos_inf : jfloat := 0x7f800000.
Definition neg_inf : jfloat := 0xff800000.
Definition min_subnormal : jfloat := 0x00000001.
Definition neg_min_subnormal : jfloat := 0x80000001.
Definition f32_one : jfloat := 0x3f800000.
Definition f32_minus_one : jfloat := 0xbf800000.
Definition f32_two : jfloat := 0x40000000.
Definition f32_minus_two : jfloat := 0xc0000000.
Definition f32_half : jfloat := 0x3f000000.

(** ** The external library and the delegating wrappers

    fdlibm is not part of this file: its entry points are taken as the
    fields of a record, one per [ieee_*] function called below. *)

Record fdlibm : Type := {
  ieee_sin : jdouble -> jdouble;
  ieee_cos : jdouble -> jdouble;
  ieee_tan : jdouble -> jdouble;
  ieee_asin : jdouble -> jdouble;
  ieee_acos : jdouble -> jdouble;
  ieee_atan : jdouble -> jdouble;
  ieee_exp : jdouble -> jdouble;
  ieee_log : jdouble -> jdouble;
  ieee_sqrt : jdouble -> jdouble;
  ieee_remainder : jdouble -> jdouble -> jdouble;
  ieee_floor : jdouble -> jdouble;
  ieee_ceil : jdouble -> jdouble;
  ieee_rint : jdouble -> jdouble;
  ieee_atan2 : jdouble -> jdouble -> jdouble;
  ieee_pow : jdouble -> jdouble -> jdouble;
  ieee_sinh : jdouble -> jdouble;
  ieee_tanh : jdouble -> jdouble;
  ieee_cosh : jdouble -> jdouble;
  ieee_log10 : jdouble -> jdouble;
  ieee_cbrt : jdouble -> jdouble;
  ieee_expm1 : jdouble -> jdouble;
  ieee_hypot : jdouble -> jdouble -> jdouble;
  ieee_log1p : jdouble -> jdouble;
  ieee_nextafter : jdouble -> jdouble -> jdouble
}.

(** A function pointer of the registration table, by JNI signature. *)
Inductive native_fn : Type :=
| FnD (f : jdouble -> jdouble)
| FnDD (f : jdouble -> jdouble -> jdouble)
| FnFF (f : jfloat -> jfloat -> jfloat).

Record JNINativeMethod : Type := {
  name : string;
  signature : string;
  fnPtr : native_fn
}.

Section StrictMath.
Variable lib : fdlibm.

Definition jsin (a : jdouble) : jdouble := ieee_sin lib a.
Definition jcos (a : jdouble) : jdouble := ieee_cos lib a.
Definition jtan (a : jdouble) : jdouble := ieee_tan lib a.
Definition jasin (a : jdouble) : jdouble := ieee_asin lib a.
Definition jacos (a : jdouble) : jdouble := ieee_acos lib a.
Definition jatan (a : jdouble) : jdouble := ieee_atan lib a.
Definition jexp (a : jdouble) : jdouble := ieee_exp lib a.
Definition jlog (a : jdouble) : jdouble := ieee_log lib a.
Definition jsqrt2 (a : jdouble) : jdouble := ieee_sqrt lib a.
Definition jieee_remainder (a b : jdouble) : jdouble := ieee_remainder lib a b.
Definition jfloor (a : jdouble) : jdouble := ieee_floor lib a.
Definition jceil (a : jdouble) : jdouble := ieee_ceil lib a.
Definition jrint (a : jdouble) : jdouble := ieee_rint lib a.
Definition jatan2 (a b : jdouble) : jdouble := ieee_atan2 lib a b.
Definition jpow (a b : jdouble) : jdouble := ieee_pow lib a b.
Definition jsinh (a : jdouble) : jdouble := ieee_sinh lib a.
Definition jtanh (a : jdouble) : jdouble := ieee_tanh lib a.
Definition jcosh (a : jdouble) : jdouble := ieee_cosh lib a.
Definition jlog10 (a : jdouble) : jdouble := ieee_log10 lib a.
Definition jcbrt (a : jdouble) : jdouble := ieee_cbrt lib a.
Definition jexpm1 (a : jdouble) : jdouble := ieee_expm1 lib a.
Definition jhypot (a b : jdouble) : jdouble := ieee_hypot lib a b.
Definition jlog1p (a : jdouble) : jdouble := ieee_log1p lib a.
Definition jnextafter (a b : jdouble) : jdouble := ieee_nextafter lib a b.

Definition gMethods : list JNINativeMethod := [
  {| name := "IEEEremainder"; signature := "(DD)D"; fnPtr := FnDD jieee_remainder |};
  {| name := "acos"; signature := "(D)D"; fnPtr := FnD jacos |};
  {| name := "asin"; signature := "(D)D"; fnPtr := FnD jasin |};
  {| name := "atan"; signature := "(D)D"; fnPtr := FnD jatan |};
  {| name := "atan2"; signature := "(DD)D"; fnPtr := FnDD jatan2 |};
  {| name := "cbrt"; signature := "(D)D"; fnPtr := FnD jcbrt |};
  {| name := "ceil"; signature := "(D)D"; fnPtr := FnD jceil |};
  {| name := "cos"; signature := "(D)D"; fnPtr := FnD jcos |};
  {| name := "cosh"; signature := "(D)D"; fnPtr := FnD jcosh |};
  {| name := "exp"; signature := "(D)D"; fnPtr := FnD jexp |};
  {| name := "expm1"; signature := "(D)D"; fnPtr := FnD jexpm1 |};
  {| name := "floor"; signature := "(D)D"; fnPtr := FnD jfloor |};
  {| name := "hypot"; signature := "(DD)D"; fnPtr := FnDD jhypot |};
  {| name := "log"; signature := "(D)D"; fnPtr := FnD jlog |};
  {| name := "log10"; signature := "(D)D"; fnPtr := FnD jlog10 |};
  {| name := "log1p"; signature := "(D)D"; fnPtr := FnD jlog1p |};
  {| name := "nextafter"; signature := "(DD)D"; fnPtr := FnDD jnextafter |};
  {| name := "nextafterf"; signature := "(FF)F"; fnPtr := FnFF jnextafterf |};
  {| name := "pow"; signature := "(DD)D"; fnPtr := FnDD jpow |};
  {| name := "rint"; signature := "(D)D"; fnPtr := FnD jrint |};
  {| name := "sin"; signature := "(D)D"; fnPtr := FnD jsin |};
  {| name := "sinh"; signature := "(D)D"; fnPtr := FnD jsinh |};
  {| name := "sqrt"; signature := "(D)D"; fnPtr := FnD jsqrt2 |};
  {| name := "tan"; signature := "(D)D"; fnPtr := FnD jtan |};
  {| name := "tanh"; signature := "(D)D"; fnPtr := FnD jtanh |}
]%string.

(** The function registered under a name. *)
Definition registered (n : string) : option native_fn :=
  option_map fnPtr (find (fun m => String.eqb (name m) n) gMethods).

(** The claimed correspondence, following the specification's list: each
    exposed double-precision operation and the external function it stands
    for. *)
Definition external_of (n : string) : option native_fn :=
  (if String.eqb n "sin" then Some (FnD (ieee_sin lib))
   else if String.eqb n "cos" then Some (FnD (ieee_cos lib))
   else if String.eqb n "tan" then Some (FnD (ieee_tan lib))
   else if String.eqb n "asin" then Some (FnD (ieee_asin lib))
   else if String.eqb n "acos" then Some (FnD (ieee_acos lib))
   else if String.eqb n "atan" then Some (FnD (ieee_atan lib))
   else if String.eqb n "exp" then Some (FnD (ieee_exp lib))
   else if String.eqb n "log" then Some (FnD (ieee_log lib))
   else if String.eqb n "sqrt" then Some (FnD (ieee_sqrt lib))
   else if String.eqb n "IEEEremainder" then Some (FnDD (ieee_remainder lib))
   else if String.eqb n "floor" then Some (FnD (ieee_floor lib))
   else if String.eqb n "ceil" then Some (FnD (ieee_ceil lib))
   else if String.eqb n "rint" then Some (FnD (ieee_rint lib))
   else if String.eqb n "atan2" then Some (FnDD (ieee_atan2 lib))
   else if String.eqb n "pow" then Some (FnDD (ieee_pow lib))
   else if String.eqb n "sinh" then Some (FnD (ieee_sinh lib))
   else if String.eqb n "tanh" then Some (FnD (ieee_tanh lib))
   else if String.eqb n "cosh" then Some (FnD (ieee_cosh lib))
   else if String.eqb n "log10" then Some (FnD (ieee_log10 lib))
   else if String.eqb n "cbrt" then Some (FnD (ieee_cbrt lib))
   else if String.eqb n "expm1" then Some (FnD (ieee_expm1 lib))
   else if String.eqb n "hypot" then Some (FnDD (ieee_hypot lib))
   else if String.eqb n "log1p" then Some (FnD (ieee_log1p lib))
   else if String.eqb n "nextafter" then Some (FnDD (ieee_nextafter lib))
   else None)%string.

End StrictMath.

(** The double-precision operations named by the specification. *)
Definition double_ops : list string := [
  "sin"; "cos"; "tan"; "asin"; "acos"; "atan"; "exp"; "log"; "sqrt";
  "IEEEremainder"; "floor"; "ceil"; "rint"; "atan2"; "pow"; "sinh"; "tanh";
  "cosh"; "log10"; "cbrt"; "expm1"; "hypot"; "log1p"; "nextafter"
]%string.

(** An entry of the table is computed inside this layer when the function
    it registers is the same whatever the external library is. *)
Definition computed_in_layer (n : string) : Prop :=
  forall l1 l2 : fdlibm, registered l1 n = registered l2 n.

(** ** Iterating towards positive infinity *)

Definition next_up (x : jfloat) : jfloat := jnextafterf x 0x7f800000.

(** Number of [next_up] steps from a finite pattern to positive infinity. *)
Definition steps_to_inf (x : jfloat) : Z :=
  if magnitude_of x =? 0 then 0x7f800000
  else if sign_of x then magnitude_of x + 0x7f800000
  else 0x7f800000 - x.

(** ** Registration

    [jniRegisterNativeMethods] belongs to the JNI helper library and is
    taken as a parameter: it receives the class name, the table and the
    number of entries, and its result is returned unchanged. *)

Definition NELEM {A : Type} (x : list A) : Z := Z.of_nat (List.length x).

Definition register_java_lang_StrictMath
    (jniRegisterNativeMethods : string -> list JNINativeMethod -> Z -> Z)
    (lib : fdlibm) : Z :=
  jniRegisterNativeMethods "java/lang/StrictMath"%string (gMethods lib)
                           (NELEM (gMethods lib)).

(** The JNI signature that goes with the C type of a registered function. *)
Definition signature_of (f : native_fn) : string :=
  match f with
  | FnD _ => "(D)D"
  | FnDD _ => "(DD)D"
  | FnFF _ => "(FF)F"
  end%string.

(** One step from [s] in the direction of [y], as a function of [s]. *)
Definition toward (y : jfloat) (s : jfloat) : jfloat := jnextafterf s y.

(** ** The routine under ISO C integer arithmetic

    In ISO C a signed addition whose result leaves the range of its type
    has no defined value.  [jint_checked] keeps a result that fits a
    [jint] and gives [None] otherwise; [jnextafterf_iso] is the body of
    [jnextafterf] with [hx += 1] and [hx -= 1] read that way.  The pointer
    casts are read as a reinterpretation of the 32 bits, and the conversion
    of the unsigned value back to [jint] as reduction modulo 2^32. *)

Definition jint_checked (z : Z) : option jint :=
  if (- 2 ^ 31 <=? z) && (z <? 2 ^ 31) then Some z else None.

Definition jnextafterf_iso (arg1 arg2 : jfloat) : option jfloat :=
  let hx := jint_of_jfloat arg1 in
  let hy := jint_of_jfloat arg2 in
  if Z.land hx 0x7fffffff =? 0 then
    (* arg1 == 0 *)
    Some (jfloat_of_jint
            (jint_of_uint (Z.lor (Z.land (uint_of_jint hy) 0x80000000) 0x1)))
  else
    match (if away_test hx hy then jint_checked (hx + 1)
           else jint_checked (hx - 1)) with
    | Some hx' => Some (jfloat_of_jint hx')
    | None => None
    end.

(** The JNI entry point.  The state behind [JNIEnv* env] (pending
    exception, references, heap) and the class handle belong to the
    runtime and are taken as parameters; both arguments are marked unused
    in the source, so the environment is handed back as it came. *)
Section JNI.
Variables JNIEnv jclass : Type.

Definition jnextafterf_native (env : JNIEnv) (clazz : jclass)
    (arg1 arg2 : jfloat) : JNIEnv * option jfloat :=
  (env, jnextafterf_iso arg1 arg2).

End JNI.

Arguments jnextafterf_native {JNIEnv jclass} env clazz arg1 arg2.

(** ** Auxiliary definitions for the proofs *)

(** The value of a pattern scaled by 2^149, with its sign. *)
Definition skey (b : jfloat) : Z :=
  if sign_of b then - scaled_magnitude b else scaled_magnitude b.

(** The reading of the test given by the comment in the source:
    it holds exactly when [|start| < |direction|]. *)
Definition test_is_abs_lt (start direction : jfloat) : Prop :=
  away_test (jint_of_jfloat start) (jint_of_jfloat direction) = true <->
  f32_abs_lt start direction = true.

(** Two instances of the external library that differ on [ieee_nextafter]
    only. *)
Definition lib_first : fdlibm := {|
  ieee_sin := fun a => a; ieee_cos := fun a => a; ieee_tan := fun a => a;
  ieee_asin := fun a => a; ieee_acos := fun a => a; ieee_atan := fun a => a;
  ieee_exp := fun a => a; ieee_log := fun a => a; ieee_sqrt := fun a => a;
  ieee_remainder := fun a _ => a; ieee_floor := fun a => a;
  ieee_ceil := fun a => a; ieee_rint := fun a => a;
  ieee_atan2 := fun a _ => a; ieee_pow := fun a _ => a;
  ieee_sinh := fun a => a; ieee_tanh := fun a => a; ieee_cosh := fun a => a;
  ieee_log10 := fun a => a; ieee_cbrt := fun a => a; ieee_expm1 := fun a => a;
  ieee_hypot := fun a _ => a; ieee_log1p := fun a => a;
  ieee_nextafter := fun a _ => a
|}.

Definition lib_second : fdlibm := {|
  ieee_sin := fun a => a; ieee_cos := fun a => a; ieee_tan := fun a => a;
  ieee_asin := fun a => a; ieee_acos := fun a => a; ieee_atan := fun a => a;
  ieee_exp := fun a => a; ieee_log := fun a => a; ieee_sqrt := fun a => a;
  ieee_remainder := fun a _ => a; ieee_floor := fun a => a;
  ieee_ceil := fun a => a; ieee_rint := fun a => a;
  ieee_atan2 := fun a _ => a; ieee_pow := fun a _ => a;
  ieee_sinh := fun a => a; ieee_tanh := fun a => a; ieee_cosh := fun a => a;
  ieee_log10 := fun a => a; ieee_cbrt := fun a => a; ieee_expm1 := fun a => a;
  ieee_hypot := fun a _ => a; ieee_log1p := fun a => a;
  ieee_nextafter := fun _ b => b
|}.

(** Both next-representable-float routines, [nextafter] and [nextafterf],
    are computed inside this layer. *)
Definition two_bit_routines : Prop :=
  computed_in_layer "nextafter" /\ computed_in_layer "nextafterf".

(** Goals about [/] and [mod] by constants. *)
Ltac euclid := Z.div_mod_to_equations; lia.

(** * Properties *)

Example value_one : f32_value f32_one = Fin (2 ^ 149 # 2 ^ 149).
Proof. reflexivity. Qed.

Example value_minus_two : f32_value f32_minus_two = Fin (- 2 ^ 150 # 2 ^ 149).
Proof. reflexivity. Qed.

Example value_half : f32_value f32_half = Fin (2 ^ 148 # 2 ^ 149).
Proof. reflexivity. Qed.

Example value_pos_inf : f32_value pos_inf = Inf false.
Proof. reflexivity. Qed.

Example value_neg_zero : f32_value neg_zero = Fin (0 # 2 ^ 149).
Proof. reflexivity. Qed.

(** ** Bit patterns as arithmetic *)

Lemma jint_of_jfloat_range (arg : jfloat) : is_jint (jint_of_jfloat arg).
Proof.
  unfold is_jint, jint_of_jfloat.
  destruct (Z.ltb_spec (arg mod 2 ^ 32) (2 ^ 31)); euclid.
Qed.

Lemma jint_of_jfloat_small (arg : jfloat) :
  is_jfloat arg ->
  jint_of_jfloat arg = if arg <? 2 ^ 31 then arg else arg - 2 ^ 32.
Proof.
  unfold is_jfloat, jint_of_jfloat. intros H.
  rewrite Z.mod_small by lia. reflexivity.
Qed.

Lemma jfloat_of_jint_range (h : jint) : is_jfloat (jfloat_of_jint h).
Proof. unfold is_jfloat, jfloat_of_jint. euclid. Qed.

Lemma jfloat_of_jint_wrap (z : Z) :
  jfloat_of_jint (jint_wrap z) = z mod 2 ^ 32.
Proof. unfold jfloat_of_jint, jint_wrap. euclid. Qed.

Lemma jint_wrap_range (z : Z) : is_jint (jint_wrap z).
Proof. unfold is_jint, jint_wrap. euclid. Qed.

Lemma jint_wrap_small (z : Z) : is_jint z -> jint_wrap z = z.
Proof. unfold is_jint, jint_wrap. intros H. euclid. Qed.

Lemma jfloat_jint_roundtrip (arg : jfloat) :
  is_jfloat arg -> jfloat_of_jint (jint_of_jfloat arg) = arg.
Proof.
  intros H. rewrite jint_of_jfloat_small by assumption.
  unfold is_jfloat, jfloat_of_jint in *.
  destruct (Z.ltb_spec arg (2 ^ 31)); euclid.
Qed.

Lemma land_low31 (h : Z) : Z.land h 0x7fffffff = h mod 2 ^ 31.
Proof. change 0x7fffffff with (Z.ones 31). apply Z.land_ones. lia. Qed.

Lemma magnitude_of_mod (b : jfloat) : magnitude_of b = b mod 2 ^ 31.
Proof. apply land_low31. Qed.

Lemma mantissa_of_mod (b : jfloat) : mantissa_of b = b mod 2 ^ 23.
Proof.
  unfold mantissa_of. change 0x7fffff with (Z.ones 23). apply Z.land_ones. lia.
Qed.

Lemma exponent_of_div (b : jfloat) : exponent_of b = (b / 2 ^ 23) mod 2 ^ 8.
Proof.
  unfold exponent_of. change 0xff with (Z.ones 8).
  rewrite Z.land_ones by lia. rewrite Z.shiftr_div_pow2 by lia. reflexivity.
Qed.

Lemma sign_of_leb (b : jfloat) : is_jfloat b -> sign_of b = (2 ^ 31 <=? b).
Proof.
  unfold is_jfloat, sign_of. intros H.
  rewrite Z.testbit_eqb by lia.
  destruct (Z.leb_spec (2 ^ 31) b).
  - assert (b / 2 ^ 31 = 1) as -> by euclid. reflexivity.
  - assert (b / 2 ^ 31 = 0) as -> by euclid. reflexivity.
Qed.

Lemma land_sign_bit (u : Z) :
  0 <= u < 2 ^ 32 ->
  Z.land u 0x80000000 = if 2 ^ 31 <=? u then 0x80000000 else 0.
Proof.
  intros H. pose proof (sign_of_leb u H) as Hs. unfold sign_of in Hs.
  apply Z.bits_inj'. intros n Hn.
  rewrite Z.land_spec. change 0x80000000 with (2 ^ 31).
  rewrite Z.pow2_bits_eqb by lia.
  destruct (Z.eqb_spec 31 n) as [<- | Hne].
  - rewrite Hs, andb_true_r.
    destruct (2 ^ 31 <=? u).
    + rewrite Z.pow2_bits_eqb by lia. reflexivity.
    + rewrite Z.bits_0. reflexivity.
  - rewrite andb_false_r.
    destruct (2 ^ 31 <=? u).
    + rewrite Z.pow2_bits_eqb by lia.
      symmetry. apply Z.eqb_neq. assumption.
    + rewrite Z.bits_0. reflexivity.
Qed.

(** The signed reading of a pattern keeps its low 31 bits. *)
Lemma jint_low31 (arg : jfloat) :
  Z.land (jint_of_jfloat arg) 0x7fffffff = magnitude_of arg.
Proof.
  rewrite land_low31, magnitude_of_mod. unfold jint_of_jfloat.
  destruct (Z.ltb_spec (arg mod 2 ^ 32) (2 ^ 31)); euclid.
Qed.

(** The branch test, read on the unsigned patterns. *)
Lemma away_test_bits (a b : jfloat) :
  is_jfloat a -> is_jfloat b -> magnitude_of a <> 0 ->
  away_test (jint_of_jfloat a) (jint_of_jfloat b) =
  if a <? 2 ^ 31 then (b <? 2 ^ 31) && (a <=? b)
  else (2 ^ 31 <=? b) && (b <? a).
Proof.
  intros Ha Hb Hm. rewrite magnitude_of_mod in Hm.
  rewrite !jint_of_jfloat_small by assumption.
  unfold is_jfloat, away_test in *.
  destruct (Z.ltb_spec a (2 ^ 31)), (Z.ltb_spec b (2 ^ 31)); cbn [andb].
  - assert (0 < a) by euclid.
    destruct (Z.ltb_spec 0 a), (Z.ltb_spec b a), (Z.leb_spec a b);
      try lia; reflexivity.
  - destruct (Z.ltb_spec 0 a), (Z.ltb_spec (b - 2 ^ 32) a);
      try lia; try reflexivity. euclid.
  - destruct (Z.ltb_spec 0 (a - 2 ^ 32)), (Z.ltb_spec b (a - 2 ^ 32)),
      (Z.leb_spec (2 ^ 31) b); try lia; reflexivity.
  - destruct (Z.ltb_spec 0 (a - 2 ^ 32)),
      (Z.ltb_spec (b - 2 ^ 32) (a - 2 ^ 32)), (Z.leb_spec (2 ^ 31) b),
      (Z.ltb_spec b a); try lia; reflexivity.
Qed.

(** [jnextafterf] on well-formed patterns, in arithmetic form. *)
Lemma jnextafterf_bits (a b : jfloat) :
  is_jfloat a -> is_jfloat b ->
  jnextafterf a b =
  if magnitude_of a =? 0 then (if b <? 2 ^ 31 then 0x00000001 else 0x80000001)
  else if away_test (jint_of_jfloat a) (jint_of_jfloat b)
       then (a + 1) mod 2 ^ 32 else (a - 1) mod 2 ^ 32.
Proof.
  intros Ha Hb. unfold jnextafterf. cbv zeta.
  rewrite jint_low31.
  destruct (magnitude_of a =? 0).
  - unfold uint_of_jint.
    replace (jint_of_jfloat b mod 2 ^ 32) with b
      by (symmetry; apply (jfloat_jint_roundtrip b Hb)).
    rewrite land_sign_bit by exact Hb.
    destruct (Z.ltb_spec b (2 ^ 31)), (Z.leb_spec (2 ^ 31) b);
      try lia; reflexivity.
  - assert (forall d, jfloat_of_jint (jint_wrap (jint_of_jfloat a + d))
                      = (a + d) mod 2 ^ 32) as Hw.
    { intros d. rewrite jfloat_of_jint_wrap.
      rewrite jint_of_jfloat_small by assumption.
      unfold is_jfloat in Ha. destruct (a <? 2 ^ 31); euclid. }
    destruct (away_test _ _).
    + apply Hw.
    + apply (Hw (-1)).
Qed.

(** ** Monotonicity of the encoding

    On the low 31 bits the scaled magnitude is a strictly increasing
    function of the pattern: this is what makes "pattern plus one" the
    next magnitude. *)

Lemma scaled_magnitude_low (m : Z) :
  0 <= m < 2 ^ 31 ->
  scaled_magnitude m =
  if m / 2 ^ 23 =? 0 then m mod 2 ^ 23
  else (2 ^ 23 + m mod 2 ^ 23) * 2 ^ (m / 2 ^ 23 - 1).
Proof.
  intros H. unfold scaled_magnitude. cbv zeta.
  rewrite exponent_of_div, mantissa_of_mod.
  replace ((m / 2 ^ 23) mod 2 ^ 8) with (m / 2 ^ 23) by euclid.
  reflexivity.
Qed.

Lemma scaled_magnitude_magnitude (b : jfloat) :
  scaled_magnitude b = scaled_magnitude (magnitude_of b).
Proof.
  unfold scaled_magnitude. cbv zeta.
  rewrite !exponent_of_div, !mantissa_of_mod, magnitude_of_mod.
  replace ((b mod 2 ^ 31 / 2 ^ 23) mod 2 ^ 8) with ((b / 2 ^ 23) mod 2 ^ 8)
    by euclid.
  replace ((b mod 2 ^ 31) mod 2 ^ 23) with (b mod 2 ^ 23) by euclid.
  reflexivity.
Qed.

Lemma scaled_magnitude_step (m : Z) :
  0 <= m -> m + 1 < 2 ^ 31 ->
  scaled_magnitude m < scaled_magnitude (m + 1).
Proof.
  intros H0 H1. rewrite !scaled_magnitude_low by lia.
  set (e := m / 2 ^ 23). set (f := m mod 2 ^ 23).
  assert (0 <= e < 256) as He by (subst e; euclid).
  assert (0 <= f < 2 ^ 23) as Hf by (subst f; euclid).
  assert (m = e * 2 ^ 23 + f) as Hm by (subst e f; euclid).
  destruct (Z.eq_dec (f + 1) (2 ^ 23)) as [Hc | Hc].
  - (* the mantissa carries into the exponent *)
    replace ((m + 1) / 2 ^ 23) with (e + 1) by euclid.
    replace ((m + 1) mod 2 ^ 23) with 0 by euclid.
    destruct (Z.eqb_spec (e + 1) 0); [lia|].
    destruct (Z.eqb_spec e 0) as [-> | Hne].
    + change (2 ^ (0 + 1 - 1)) with 1. lia.
    + replace (e + 1 - 1) with (Z.succ (e - 1)) by lia.
      rewrite Z.pow_succ_r by lia.
      assert (0 < 2 ^ (e - 1)) by (apply Z.pow_pos_nonneg; lia).
      nia.
  - replace ((m + 1) / 2 ^ 23) with e by euclid.
    replace ((m + 1) mod 2 ^ 23) with (f + 1) by euclid.
    destruct (Z.eqb_spec e 0); [lia|].
    assert (0 < 2 ^ (e - 1)) by (apply Z.pow_pos_nonneg; lia).
    nia.
Qed.

Lemma scaled_magnitude_mono (a b : Z) :
  0 <= a -> a < b -> b < 2 ^ 31 ->
  scaled_magnitude a < scaled_magnitude b.
Proof.
  intros Ha Hab Hb.
  assert (forall n, 0 <= n -> a + n + 1 < 2 ^ 31 ->
                    scaled_magnitude a < scaled_magnitude (a + n + 1)) as Hind.
  { intros n Hn. pattern n. apply natlike_ind; [ | | exact Hn].
    - intros H. rewrite Z.add_0_r. apply scaled_magnitude_step; lia.
    - intros k Hk IH H.
      apply Z.lt_trans with (scaled_magnitude (a + k + 1)).
      + apply IH. lia.
      + replace (a + Z.succ k + 1) with (a + k + 1 + 1) by lia.
        apply scaled_magnitude_step; lia. }
  replace b with (a + (b - a - 1) + 1) by lia. apply Hind; lia.
Qed.

Lemma scaled_magnitude_reflect (a b : Z) :
  0 <= a < 2 ^ 31 -> 0 <= b < 2 ^ 31 ->
  scaled_magnitude a < scaled_magnitude b -> a < b.
Proof.
  intros Ha Hb H.
  destruct (Z.lt_trichotomy a b) as [Hlt | [-> | Hgt]]; [assumption | lia | ].
  pose proof (scaled_magnitude_mono b a). lia.
Qed.

Lemma scaled_magnitude_zero : scaled_magnitude 0 = 0.
Proof. reflexivity. Qed.

Lemma scaled_magnitude_nonneg (b : jfloat) : 0 <= scaled_magnitude b.
Proof.
  rewrite scaled_magnitude_magnitude.
  pose proof (magnitude_of_mod b) as Hm.
  assert (0 <= magnitude_of b < 2 ^ 31) as Hr by (rewrite Hm; euclid).
  destruct (Z.eq_dec (magnitude_of b) 0) as [-> | Hne].
  - rewrite scaled_magnitude_zero. lia.
  - pose proof (scaled_magnitude_mono 0 (magnitude_of b)).
    rewrite scaled_magnitude_zero in *. lia.
Qed.

Lemma scaled_magnitude_inf : scaled_magnitude 0x7f800000 = 2 ^ 277.
Proof. reflexivity. Qed.

(** ** Classification and order by the pattern *)

Lemma magnitude_split (b : jfloat) :
  magnitude_of b = exponent_of b * 2 ^ 23 + mantissa_of b /\
  0 <= exponent_of b < 256 /\ 0 <= mantissa_of b < 2 ^ 23.
Proof.
  rewrite magnitude_of_mod, exponent_of_div, mantissa_of_mod. euclid.
Qed.

Lemma is_finite_magnitude (b : jfloat) :
  is_finite b = (magnitude_of b <? 0x7f800000).
Proof.
  unfold is_finite. destruct (magnitude_split b) as (Hm & He & Hf).
  destruct (Z.eqb_spec (exponent_of b) 255), (Z.ltb_spec (magnitude_of b) 0x7f800000);
    try reflexivity; lia.
Qed.

Lemma is_nan_magnitude (b : jfloat) :
  is_nan b = (0x7f800000 <? magnitude_of b).
Proof.
  unfold is_nan. destruct (magnitude_split b) as (Hm & He & Hf).
  destruct (Z.eqb_spec (exponent_of b) 255), (Z.eqb_spec (mantissa_of b) 0),
    (Z.ltb_spec 0x7f800000 (magnitude_of b)); try reflexivity; cbn; lia.
Qed.

Lemma is_inf_magnitude (b : jfloat) :
  is_inf b = (magnitude_of b =? 0x7f800000).
Proof.
  unfold is_inf. destruct (magnitude_split b) as (Hm & He & Hf).
  destruct (Z.eqb_spec (exponent_of b) 255), (Z.eqb_spec (mantissa_of b) 0),
    (Z.eqb_spec (magnitude_of b) 0x7f800000); try reflexivity; cbn; lia.
Qed.

Lemma magnitude_of_range (b : jfloat) : 0 <= magnitude_of b < 2 ^ 31.
Proof. rewrite magnitude_of_mod. euclid. Qed.

Lemma magnitude_of_bits (b : jfloat) :
  is_jfloat b ->
  magnitude_of b = if sign_of b then b - 2 ^ 31 else b.
Proof.
  intros H. rewrite sign_of_leb by assumption. rewrite magnitude_of_mod.
  unfold is_jfloat in H. destruct (Z.leb_spec (2 ^ 31) b); euclid.
Qed.

(** The value of a pattern that is not a NaN, through its signed key. *)
Lemma f32_value_not_nan (b : jfloat) :
  is_nan b = false ->
  (f32_value b = Inf (sign_of b) /\ scaled_magnitude b = 2 ^ 277) \/
  (f32_value b = Fin (skey b # 2 ^ 149) /\ scaled_magnitude b < 2 ^ 277).
Proof.
  intros Hn. rewrite is_nan_magnitude in Hn.
  unfold f32_value. destruct (magnitude_split b) as (Hm & He & Hf).
  pose proof (magnitude_of_range b) as Hr.
  apply Z.ltb_ge in Hn.
  destruct (Z.eqb_spec (exponent_of b) 255) as [E | E].
  - assert (mantissa_of b = 0) as F by lia. rewrite F. cbn [Z.eqb].
    left. split; [reflexivity|].
    rewrite scaled_magnitude_magnitude.
    replace (magnitude_of b) with 0x7f800000 by lia. reflexivity.
  - right. split; [reflexivity|].
    rewrite scaled_magnitude_magnitude, <- scaled_magnitude_inf.
    apply scaled_magnitude_mono; lia.
Qed.

Lemma Qltb_same_den (a b : Z) (d : positive) :
  Qltb (a # d) (b # d) = (a <? b).
Proof.
  unfold Qltb. cbn [Qnum Qden].
  destruct (Z.ltb_spec a b), (Z.ltb_spec (a * Z.pos d) (b * Z.pos d));
    try reflexivity; nia.
Qed.

Lemma Qltb_Qlt (p q : Q) : Qltb p q = true <-> (p < q)%Q.
Proof. unfold Qltb, Qlt. apply Z.ltb_lt. Qed.

Lemma f32_lt_skey (a b : jfloat) :
  is_nan a = false -> is_nan b = false ->
  f32_lt a b = (skey a <? skey b).
Proof.
  intros Ha Hb. unfold f32_lt.
  pose proof (scaled_magnitude_nonneg a) as Na.
  pose proof (scaled_magnitude_nonneg b) as Nb.
  destruct (f32_value_not_nan a Ha) as [(-> & Sa) | (-> & Sa)],
           (f32_value_not_nan b Hb) as [(-> & Sb) | (-> & Sb)];
    unfold skey in *; cbn [flt].
  - destruct (sign_of a), (sign_of b); symmetry;
      [apply Z.ltb_ge | apply Z.ltb_lt | apply Z.ltb_ge | apply Z.ltb_ge]; lia.
  - destruct (sign_of a), (sign_of b); symmetry;
      [apply Z.ltb_lt | apply Z.ltb_lt | apply Z.ltb_ge | apply Z.ltb_ge]; lia.
  - destruct (sign_of a), (sign_of b); symmetry;
      [apply Z.ltb_ge | apply Z.ltb_lt | apply Z.ltb_ge | apply Z.ltb_lt]; lia.
  - apply Qltb_same_den.
Qed.

Lemma f32_lt_nan_l (a b : jfloat) : is_nan a = true -> f32_lt a b = false.
Proof.
  unfold is_nan, f32_lt, f32_value. intros H.
  apply andb_true_iff in H. destruct H as [-> H].
  apply negb_true_iff in H. rewrite H. reflexivity.
Qed.

Lemma f32_lt_nan_r (a b : jfloat) : is_nan b = true -> f32_lt a b = false.
Proof.
  unfold is_nan, f32_lt. intros H.
  apply andb_true_iff in H. destruct H as [E H].
  apply negb_true_iff in H. unfold f32_value at 2. rewrite E, H.
  destruct (f32_value a) as [ | [ | ] | q]; reflexivity.
Qed.

Lemma skey_bits (b : jfloat) :
  is_jfloat b ->
  skey b = if b <? 2 ^ 31 then scaled_magnitude b
           else - scaled_magnitude (b - 2 ^ 31).
Proof.
  intros H. unfold skey. rewrite scaled_magnitude_magnitude.
  rewrite magnitude_of_bits by assumption.
  rewrite sign_of_leb by assumption.
  destruct (Z.leb_spec (2 ^ 31) b), (Z.ltb_spec b (2 ^ 31)); try lia; reflexivity.
Qed.

Lemma is_nan_bits (b : jfloat) :
  is_jfloat b ->
  is_nan b = if b <? 2 ^ 31 then 0x7f800000 <? b else 0xff800000 <? b.
Proof.
  intros H. rewrite is_nan_magnitude, magnitude_of_bits, sign_of_leb by assumption.
  destruct (Z.leb_spec (2 ^ 31) b), (Z.ltb_spec b (2 ^ 31));
    try reflexivity; lia.
Qed.

Lemma successor_by_key (x r : jfloat) :
  is_nan x = false -> is_nan r = false ->
  skey x < skey r ->
  (forall z, is_jfloat z -> is_nan z = false -> ~ (skey x < skey z < skey r)) ->
  is_successor x r.
Proof.
  intros Hx Hr Hlt Hgap. split.
  - rewrite f32_lt_skey by assumption. apply Z.ltb_lt. exact Hlt.
  - intros z Hz [H1 H2].
    destruct (is_nan z) eqn:Nz.
    + rewrite f32_lt_nan_r in H1 by assumption. discriminate.
    + rewrite f32_lt_skey in H1, H2 by assumption.
      apply Z.ltb_lt in H1. apply Z.ltb_lt in H2.
      apply (Hgap z Hz Nz). lia.
Qed.

(** Between two consecutive magnitudes of the same sign there is no key. *)
Lemma key_gap_positive (x z : jfloat) :
  0 <= x -> x + 1 < 2 ^ 31 -> is_jfloat z ->
  ~ (scaled_magnitude x < skey z < scaled_magnitude (x + 1)).
Proof.
  intros H0 H1 Hz [Ha Hb]. rewrite skey_bits in Ha, Hb by assumption.
  unfold is_jfloat in Hz.
  destruct (Z.ltb_spec z (2 ^ 31)).
  - apply scaled_magnitude_reflect in Ha; [ | lia | lia].
    apply scaled_magnitude_reflect in Hb; [ | lia | lia]. lia.
  - pose proof (scaled_magnitude_nonneg (z - 2 ^ 31)).
    pose proof (scaled_magnitude_nonneg x). lia.
Qed.

Lemma key_gap_negative (m z : jfloat) :
  0 < m < 2 ^ 31 -> is_jfloat z ->
  ~ (- scaled_magnitude m < skey z < - scaled_magnitude (m - 1)).
Proof.
  intros Hm Hz [Ha Hb]. rewrite skey_bits in Ha, Hb by assumption.
  unfold is_jfloat in Hz.
  destruct (Z.ltb_spec z (2 ^ 31)).
  - pose proof (scaled_magnitude_nonneg z).
    pose proof (scaled_magnitude_nonneg (m - 1)). lia.
  - assert (scaled_magnitude (z - 2 ^ 31) < scaled_magnitude m) as Hc by lia.
    assert (scaled_magnitude (m - 1) < scaled_magnitude (z - 2 ^ 31)) as Hd by lia.
    apply scaled_magnitude_reflect in Hc; [ | lia | lia].
    apply scaled_magnitude_reflect in Hd; [ | lia | lia]. lia.
Qed.

(** ** One step towards positive infinity *)

Lemma finite_cases (x : jfloat) :
  is_jfloat x -> is_finite x = true ->
  (x = 0x00000000 \/ x = 0x80000000) \/
  0 < x < 0x7f800000 \/ 0x80000000 < x < 0xff800000.
Proof.
  intros Hx Hf.
  rewrite is_finite_magnitude, magnitude_of_mod in Hf.
  apply Z.ltb_lt in Hf. unfold is_jfloat in Hx. euclid.
Qed.

Lemma magnitude_of_zero_cases (x : jfloat) :
  is_jfloat x ->
  (magnitude_of x =? 0) = ((x =? 0x00000000) || (x =? 0x80000000)).
Proof.
  intros Hx. rewrite magnitude_of_mod. unfold is_jfloat in Hx.
  destruct (Z.eqb_spec (x mod 2 ^ 31) 0), (Z.eqb_spec x 0x00000000),
    (Z.eqb_spec x 0x80000000); try reflexivity; euclid.
Qed.

Lemma next_up_zero (x : jfloat) :
  x = 0x00000000 \/ x = 0x80000000 -> next_up x = 0x00000001.
Proof. intros [-> | ->]; reflexivity. Qed.

Lemma next_up_positive (x : jfloat) :
  0 < x < 0x7f800000 -> next_up x = x + 1.
Proof.
  intros Hx. unfold next_up.
  assert (is_jfloat x) as Jx by (unfold is_jfloat; lia).
  assert (is_jfloat 0x7f800000) as Ji by (unfold is_jfloat; lia).
  assert (magnitude_of x <> 0) as Hm by (rewrite magnitude_of_mod; euclid).
  rewrite jnextafterf_bits by assumption.
  destruct (Z.eqb_spec (magnitude_of x) 0); [contradiction|].
  rewrite away_test_bits by assumption.
  destruct (Z.ltb_spec x (2 ^ 31)); [ | lia].
  destruct (Z.leb_spec x 0x7f800000); [ | lia].
  cbn [andb Z.ltb Z.compare Pos.compare Pos.compare_cont Z.pow Z.pow_pos Pos.iter Z.mul Pos.mul].
  apply Z.mod_small. lia.
Qed.

Lemma next_up_negative (x : jfloat) :
  0x80000000 < x < 0xff800000 -> next_up x = x - 1.
Proof.
  intros Hx. unfold next_up.
  assert (is_jfloat x) as Jx by (unfold is_jfloat; lia).
  assert (is_jfloat 0x7f800000) as Ji by (unfold is_jfloat; lia).
  assert (magnitude_of x <> 0) as Hm by (rewrite magnitude_of_mod; euclid).
  rewrite jnextafterf_bits by assumption.
  destruct (Z.eqb_spec (magnitude_of x) 0); [contradiction|].
  rewrite away_test_bits by assumption.
  destruct (Z.ltb_spec x (2 ^ 31)); [lia | ].
  replace (2 ^ 31 <=? 0x7f800000) with false by reflexivity.
  cbn [andb]. apply Z.mod_small. lia.
Qed.

Lemma not_nan_of_finite (x : jfloat) : is_finite x = true -> is_nan x = false.
Proof.
  unfold is_finite, is_nan. intros H. apply negb_true_iff in H.
  rewrite H. reflexivity.
Qed.

Lemma successor_of_zero (x : jfloat) :
  x = 0x00000000 \/ x = 0x80000000 -> is_successor x 0x00000001.
Proof.
  intros Hx.
  assert (skey x = 0) as Kx by (destruct Hx as [-> | ->]; reflexivity).
  apply successor_by_key.
  - destruct Hx as [-> | ->]; reflexivity.
  - reflexivity.
  - rewrite Kx. reflexivity.
  - intros z _ _. rewrite Kx. change (skey 0x00000001) with 1. lia.
Qed.

Lemma successor_of_positive (x : jfloat) :
  0 < x < 0x7f800000 -> is_successor x (x + 1).
Proof.
  intros Hx.
  assert (is_jfloat x) as Jx by (unfold is_jfloat; lia).
  assert (is_jfloat (x + 1)) as Jr by (unfold is_jfloat; lia).
  assert (skey x = scaled_magnitude x) as Kx.
  { rewrite skey_bits by assumption. destruct (Z.ltb_spec x (2 ^ 31)); [reflexivity | lia]. }
  assert (skey (x + 1) = scaled_magnitude (x + 1)) as Kr.
  { rewrite skey_bits by assumption.
    destruct (Z.ltb_spec (x + 1) (2 ^ 31)); [reflexivity | lia]. }
  apply successor_by_key.
  - rewrite is_nan_bits by assumption. destruct (Z.ltb_spec x (2 ^ 31)); lia.
  - rewrite is_nan_bits by assumption. destruct (Z.ltb_spec (x + 1) (2 ^ 31)); lia.
  - rewrite Kx, Kr. apply scaled_magnitude_step; lia.
  - intros z Hz _. rewrite Kx, Kr. apply key_gap_positive; (assumption || lia).
Qed.

Lemma successor_of_negative (x : jfloat) :
  0x80000000 < x < 0xff800000 -> is_successor x (x - 1).
Proof.
  intros Hx.
  assert (is_jfloat x) as Jx by (unfold is_jfloat; lia).
  assert (is_jfloat (x - 1)) as Jr by (unfold is_jfloat; lia).
  assert (skey x = - scaled_magnitude (x - 2 ^ 31)) as Kx.
  { rewrite skey_bits by assumption. destruct (Z.ltb_spec x (2 ^ 31)); [lia | reflexivity]. }
  assert (skey (x - 1) = - scaled_magnitude (x - 2 ^ 31 - 1)) as Kr.
  { unfold skey. rewrite scaled_magnitude_magnitude.
    replace (magnitude_of (x - 1)) with (x - 2 ^ 31 - 1)
      by (rewrite magnitude_of_mod; euclid).
    destruct (sign_of (x - 1)) eqn:S; [reflexivity|].
    rewrite sign_of_leb in S by assumption.
    replace (x - 2 ^ 31 - 1) with 0 by lia. reflexivity. }
  apply successor_by_key.
  - rewrite is_nan_bits by assumption. destruct (Z.ltb_spec x (2 ^ 31)); lia.
  - rewrite is_nan_bits by assumption. destruct (Z.ltb_spec (x - 1) (2 ^ 31)); lia.
  - rewrite Kx, Kr.
    pose proof (scaled_magnitude_step (x - 2 ^ 31 - 1)).
    replace (x - 2 ^ 31 - 1 + 1) with (x - 2 ^ 31) in * by lia. lia.
  - intros z Hz _. rewrite Kx, Kr. apply key_gap_negative; (assumption || lia).
Qed.

Lemma next_up_step (x : jfloat) :
  is_jfloat x -> is_finite x = true ->
  is_successor x (next_up x) /\
  is_jfloat (next_up x) /\
  (is_finite (next_up x) = true \/ next_up x = pos_inf) /\
  steps_to_inf (next_up x) = steps_to_inf x - 1.
Proof.
  intros Jx Hf.
  destruct (finite_cases x Jx Hf) as [Hz | [Hp | Hn]].
  - rewrite (next_up_zero x Hz). split; [apply successor_of_zero; exact Hz|].
    destruct Hz as [-> | ->]; (split; [unfold is_jfloat; lia|]);
      (split; [left; reflexivity | reflexivity]).
  - rewrite (next_up_positive x Hp). split; [apply successor_of_positive; exact Hp|].
    assert (is_jfloat (x + 1)) as Jr by (unfold is_jfloat; lia).
    split; [exact Jr|]. split.
    + destruct (Z.eq_dec (x + 1) pos_inf) as [E | E]; [right; exact E|].
      left. unfold pos_inf in E.
      rewrite is_finite_magnitude, magnitude_of_mod. apply Z.ltb_lt. euclid.
    + unfold steps_to_inf. rewrite !magnitude_of_mod.
      rewrite !sign_of_leb by assumption.
      destruct (Z.eqb_spec ((x + 1) mod 2 ^ 31) 0); [euclid|].
      destruct (Z.eqb_spec (x mod 2 ^ 31) 0); [euclid|].
      destruct (Z.leb_spec (2 ^ 31) (x + 1)), (Z.leb_spec (2 ^ 31) x); lia.
  - rewrite (next_up_negative x Hn). split; [apply successor_of_negative; exact Hn|].
    assert (is_jfloat (x - 1)) as Jr by (unfold is_jfloat; lia).
    split; [exact Jr|]. split.
    + left. rewrite is_finite_magnitude, magnitude_of_mod. apply Z.ltb_lt. euclid.
    + unfold steps_to_inf. rewrite !magnitude_of_mod.
      rewrite !sign_of_leb by assumption.
      destruct (Z.eqb_spec (x mod 2 ^ 31) 0); [euclid|].
      destruct (Z.eqb_spec ((x - 1) mod 2 ^ 31) 0) as [E | E].
      * destruct (Z.leb_spec (2 ^ 31) x); euclid.
      * destruct (Z.leb_spec (2 ^ 31) (x - 1)), (Z.leb_spec (2 ^ 31) x); euclid.
Qed.

Lemma steps_to_inf_positive (x : jfloat) :
  is_jfloat x -> is_finite x = true -> 0 < steps_to_inf x.
Proof.
  intros Jx Hf. unfold steps_to_inf.
  rewrite magnitude_of_mod, sign_of_leb by assumption.
  destruct (finite_cases x Jx Hf) as [[-> | ->] | [Hp | Hn]];
    try reflexivity.
  - destruct (Z.eqb_spec (x mod 2 ^ 31) 0); [lia|].
    destruct (Z.leb_spec (2 ^ 31) x); lia.
  - destruct (Z.eqb_spec (x mod 2 ^ 31) 0); [lia|].
    destruct (Z.leb_spec (2 ^ 31) x); euclid.
Qed.

Lemma iterate_next_up (n : nat) :
  forall x : jfloat,
    is_jfloat x -> is_finite x = true \/ x = pos_inf ->
    steps_to_inf x = Z.of_nat n ->
    Nat.iter n next_up x = pos_inf /\
    forall k, (k < n)%nat ->
      is_finite (Nat.iter k next_up x) = true /\
      is_successor (Nat.iter k next_up x) (Nat.iter (S k) next_up x).
Proof.
  induction n as [ | n IH]; intros x Jx Hx Hs.
  - split; [ | intros k Hk; inversion Hk].
    destruct Hx as [Hf | ->]; [ | reflexivity].
    pose proof (steps_to_inf_positive x Jx Hf). lia.
  - assert (is_finite x = true) as Hf.
    { destruct Hx as [Hf | ->]; [exact Hf | discriminate Hs]. }
    destruct (next_up_step x Jx Hf) as (Hsucc & Jr & Hr & Hsteps).
    destruct (IH (next_up x) Jr Hr) as [Hend Hmid]; [lia | ].
    split.
    + rewrite Nat.iter_succ_r. exact Hend.
    + intros [ | k] Hk.
      * split; [exact Hf | exact Hsucc].
      * rewrite !(Nat.iter_succ_r _ _ next_up x).
        apply Hmid. lia.
Qed.

(** ** Absolute values *)

Lemma skey_magnitude (b : jfloat) :
  skey (magnitude_of b) = scaled_magnitude b.
Proof.
  pose proof (magnitude_of_range b) as Hr.
  rewrite skey_bits by (unfold is_jfloat; lia).
  destruct (Z.ltb_spec (magnitude_of b) (2 ^ 31)); [ | lia].
  symmetry. apply scaled_magnitude_magnitude.
Qed.

Lemma fabs_value (b : jfloat) :
  fabs (f32_value b) = f32_value (magnitude_of b).
Proof.
  pose proof (magnitude_of_range b) as Hr.
  assert (exponent_of (magnitude_of b) = exponent_of b) as He.
  { rewrite !exponent_of_div, magnitude_of_mod. euclid. }
  assert (mantissa_of (magnitude_of b) = mantissa_of b) as Hm.
  { rewrite !mantissa_of_mod, magnitude_of_mod. euclid. }
  assert (sign_of (magnitude_of b) = false) as Hs.
  { rewrite sign_of_leb by (unfold is_jfloat; lia). apply Z.leb_gt. lia. }
  assert (scaled_magnitude (magnitude_of b) = scaled_magnitude b) as Hk
    by (symmetry; apply scaled_magnitude_magnitude).
  unfold f32_value. rewrite He, Hm, Hs, Hk.
  destruct (exponent_of b =? 255).
  - destruct (mantissa_of b =? 0); reflexivity.
  - pose proof (scaled_magnitude_nonneg b) as Hn.
    cbn [fabs Qabs]. f_equal. f_equal.
    destruct (sign_of b); lia.
Qed.

Lemma f32_abs_lt_magnitude (a b : jfloat) :
  is_nan a = false -> is_nan b = false ->
  f32_abs_lt a b = (magnitude_of a <? magnitude_of b).
Proof.
  intros Na Nb. unfold f32_abs_lt. rewrite !fabs_value.
  pose proof (magnitude_of_range a) as Ra.
  pose proof (magnitude_of_range b) as Rb.
  assert (forall c, is_nan c = false -> is_nan (magnitude_of c) = false) as Hn.
  { intros c Hc. rewrite is_nan_magnitude in *.
    replace (magnitude_of (magnitude_of c)) with (magnitude_of c); [exact Hc|].
    rewrite !magnitude_of_mod. euclid. }
  fold (f32_lt (magnitude_of a) (magnitude_of b)).
  rewrite f32_lt_skey by (apply Hn; assumption).
  rewrite !skey_magnitude, (scaled_magnitude_magnitude a), (scaled_magnitude_magnitude b).
  destruct (Z.ltb_spec (magnitude_of a) (magnitude_of b)) as [Hlt | Hge].
  - apply Z.ltb_lt. apply scaled_magnitude_mono; lia.
  - apply Z.ltb_ge.
    destruct (Z.eq_dec (magnitude_of a) (magnitude_of b)) as [-> | Hne]; [lia|].
    pose proof (scaled_magnitude_mono (magnitude_of b) (magnitude_of a)). lia.
Qed.

(** * The single-precision routine *)

(** C3: when the magnitude bits of [start] are all zero, the result is the
    pattern made of [direction]'s sign bit ORed with 1: [0x80000001] when
    [direction]'s sign bit is set and [0x00000001] otherwise.  In particular
    [nextafterf(0.0, 1.0) = 0x00000001], [nextafterf(0.0, -1.0) = 0x80000001]
    and [nextafterf(-0.0, 1.0) = 0x00000001]. *)
Theorem jnextafterf_zero_start (start direction : jfloat) :
  is_jfloat start -> is_jfloat direction -> magnitude_of start = 0 ->
  jnextafterf start direction = Z.lor (Z.land direction 0x80000000) 0x1 /\
  jnextafterf start direction =
    (if sign_of direction then 0x80000001 else 0x00000001) /\
  jnextafterf pos_zero f32_one = 0x00000001 /\
  jnextafterf pos_zero f32_minus_one = 0x80000001 /\
  jnextafterf neg_zero f32_one = 0x00000001.
Proof.
  intros Js Jd Hz.
  rewrite jnextafterf_bits by assumption. rewrite Hz. cbn [Z.eqb].
  rewrite land_sign_bit by exact Jd.
  rewrite sign_of_leb by assumption.
  unfold is_jfloat in Jd.
  repeat split;
    destruct (Z.ltb_spec direction (2 ^ 31)), (Z.leb_spec (2 ^ 31) direction);
    try lia; reflexivity.
Qed.

Lemma jnextafterf_zero_start_witness :
  jnextafterf neg_zero f32_minus_one
    = Z.lor (Z.land f32_minus_one 0x80000000) 0x1 /\
  jnextafterf neg_zero f32_minus_one =
    (if sign_of f32_minus_one then 0x80000001 else 0x00000001) /\
  jnextafterf pos_zero f32_one = 0x00000001 /\
  jnextafterf pos_zero f32_minus_one = 0x80000001 /\
  jnextafterf neg_zero f32_one = 0x00000001.
Proof.
  apply (jnextafterf_zero_start neg_zero f32_minus_one).
  - unfold is_jfloat, neg_zero. lia.
  - unfold is_jfloat, f32_minus_one. lia.
  - reflexivity.
Defined.

(** C7: when [start] is positive infinity and the test selects the
    increment branch, as it does for [nextafterf(+inf, +inf)], the result
    is the pattern [0x7F800001], which is a NaN: there is no clamping at
    infinity. *)
Theorem jnextafterf_inf_increment (direction : jfloat) :
  is_jfloat direction ->
  away_test (jint_of_jfloat pos_inf) (jint_of_jfloat direction) = true ->
  jnextafterf pos_inf direction = 0x7f800001 /\
  is_nan 0x7f800001 = true /\
  is_inf pos_inf = true /\
  away_test (jint_of_jfloat pos_inf) (jint_of_jfloat pos_inf) = true /\
  jnextafterf pos_inf pos_inf = 0x7f800001.
Proof.
  intros Jd Ht.
  assert (is_jfloat pos_inf) as Ji by (unfold is_jfloat, pos_inf; lia).
  rewrite jnextafterf_bits by assumption. rewrite Ht.
  repeat split; reflexivity.
Qed.

Lemma jnextafterf_inf_increment_witness :
  jnextafterf pos_inf pos_inf = 0x7f800001 /\
  is_nan 0x7f800001 = true /\
  is_inf pos_inf = true /\
  away_test (jint_of_jfloat pos_inf) (jint_of_jfloat pos_inf) = true /\
  jnextafterf pos_inf pos_inf = 0x7f800001.
Proof.
  apply (jnextafterf_inf_increment pos_inf).
  - unfold is_jfloat, pos_inf. lia.
  - reflexivity.
Defined.

(** The increment and the decrement stay inside the range of a [jint],
    except for the one pair of equal all-ones-magnitude patterns, where
    [hx + 1] is reduced modulo 2^32. *)
Lemma jnextafterf_no_wrap (arg1 arg2 : jfloat) :
  is_jfloat arg1 -> is_jfloat arg2 -> magnitude_of arg1 <> 0 ->
  ~ (arg1 = 0x7fffffff /\ arg2 = 0x7fffffff) ->
  let hx := jint_of_jfloat arg1 in
  let hy := jint_of_jfloat arg2 in
  is_jint (if away_test hx hy then hx + 1 else hx - 1).
Proof.
  intros J1 J2 Hm Hne hx hy. subst hx hy.
  rewrite away_test_bits by assumption.
  rewrite magnitude_of_mod in Hm.
  rewrite (jint_of_jfloat_small arg1) by assumption.
  unfold is_jfloat, is_jint in *.
  destruct (Z.ltb_spec arg1 (2 ^ 31)).
  - destruct (Z.ltb_spec arg2 (2 ^ 31)), (Z.leb_spec arg1 arg2);
      cbn [andb]; euclid.
  - destruct (Z.leb_spec (2 ^ 31) arg2), (Z.ltb_spec arg2 arg1);
      cbn [andb]; euclid.
Qed.




Example jnextafterf_iso_instances :
  jnextafterf_iso f32_one f32_two = Some 0x3f800001 /\
  jnextafterf_iso neg_zero f32_one = Some 0x00000001 /\
  jnextafterf_iso 0xffffffff 0xffffffff = Some 0xfffffffe /\
  jnextafterf_iso 0x7fffffff 0x7f800000 = Some 0x7ffffffe.
Proof. repeat split; reflexivity. Qed.

(** C10: a NaN argument is not propagated: for [start = 0x7F800001] (a NaN)
    and [direction = 0.5f] the result is [0x7F800000], positive infinity.
    More generally, whenever the magnitude bits of [start] are not all
    zero, the result is [start]'s pattern plus or minus exactly one in
    32-bit arithmetic. *)
Theorem jnextafterf_plus_minus_one (start direction : jfloat) :
  is_jfloat start -> is_jfloat direction -> magnitude_of start <> 0 ->
  (jnextafterf start direction = (start + 1) mod 2 ^ 32 \/
   jnextafterf start direction = (start - 1) mod 2 ^ 32) /\
  is_nan 0x7f800001 = true /\
  jnextafterf 0x7f800001 f32_half = 0x7f800000 /\
  is_nan 0x7f800000 = false /\
  f32_value 0x7f800000 = Inf false.
Proof.
  intros Js Jd Hm. split; [ | repeat split; reflexivity].
  rewrite jnextafterf_bits by assumption.
  destruct (Z.eqb_spec (magnitude_of start) 0); [contradiction|].
  destruct (away_test _ _); [left | right]; reflexivity.
Qed.

Lemma jnextafterf_plus_minus_one_witness :
  (jnextafterf 0x7f800001 f32_half = (0x7f800001 + 1) mod 2 ^ 32 \/
   jnextafterf 0x7f800001 f32_half = (0x7f800001 - 1) mod 2 ^ 32) /\
  is_nan 0x7f800001 = true /\
  jnextafterf 0x7f800001 f32_half = 0x7f800000 /\
  is_nan 0x7f800000 = false /\
  f32_value 0x7f800000 = Inf false.
Proof.
  apply (jnextafterf_plus_minus_one 0x7f800001 f32_half).
  - unfold is_jfloat. lia.
  - unfold is_jfloat, f32_half. lia.
  - vm_compute. lia.
Defined.

(** C6: from every finite [x], iterating [x -> nextafterf(x, +inf)] reaches
    positive infinity after finitely many steps; every element before that
    is finite and each step goes to the immediate representable successor:
    strictly greater, with no representable value strictly in between. *)
Theorem next_up_reaches_pos_inf (x : jfloat) :
  is_jfloat x -> is_finite x = true ->
  exists n : nat,
    Nat.iter n next_up x = pos_inf /\
    forall k, (k < n)%nat ->
      is_finite (Nat.iter k next_up x) = true /\
      is_successor (Nat.iter k next_up x) (Nat.iter (S k) next_up x).
Proof.
  intros Jx Hf.
  exists (Z.to_nat (steps_to_inf x)).
  apply iterate_next_up; [exact Jx | left; exact Hf | ].
  pose proof (steps_to_inf_positive x Jx Hf). lia.
Qed.

Lemma next_up_reaches_pos_inf_witness :
  exists n : nat,
    Nat.iter n next_up 0x7f7ffffe = pos_inf /\
    forall k, (k < n)%nat ->
      is_finite (Nat.iter k next_up 0x7f7ffffe) = true /\
      is_successor (Nat.iter k next_up 0x7f7ffffe)
                   (Nat.iter (S k) next_up 0x7f7ffffe).
Proof.
  apply (next_up_reaches_pos_inf 0x7f7ffffe).
  - unfold is_jfloat. lia.
  - reflexivity.
Defined.

Example next_up_from_max :
  Nat.iter 2 next_up 0x7f7ffffe = pos_inf /\
  next_up neg_min_subnormal = neg_zero /\
  next_up neg_zero = min_subnormal.
Proof. repeat split; reflexivity. Qed.

(** Towards a greater [direction] whose sign bit is clear the routine does
    return the immediate successor. *)
Lemma jnextafterf_up_sign_clear (x y : jfloat) :
  is_jfloat x -> is_finite x = true ->
  is_jfloat y -> sign_of y = false -> f32_lt x y = true ->
  jnextafterf x y = next_up x /\ is_successor x (jnextafterf x y).
Proof.
  intros Jx Hf Jy Sy Hlt.
  assert (jnextafterf x y = next_up x) as E.
  { assert (is_nan y = false) as Ny.
    { destruct (is_nan y) eqn:N; [ | reflexivity].
      rewrite f32_lt_nan_r in Hlt by assumption. discriminate. }
    rewrite f32_lt_skey in Hlt by (assumption || (apply not_nan_of_finite; assumption)).
    apply Z.ltb_lt in Hlt. rewrite !skey_bits in Hlt by assumption.
    rewrite sign_of_leb in Sy by assumption. apply Z.leb_gt in Sy.
    destruct (Z.ltb_spec y (2 ^ 31)); [ | lia].
    destruct (finite_cases x Jx Hf) as [Hz | [Hp | Hn]].
    - rewrite (next_up_zero x Hz). rewrite jnextafterf_bits by assumption.
      destruct Hz as [-> | ->]; cbn [magnitude_of Z.land Z.eqb];
        destruct (Z.ltb_spec y (2 ^ 31)); reflexivity || lia.
    - rewrite (next_up_positive x Hp). rewrite jnextafterf_bits by assumption.
      assert (magnitude_of x <> 0) as Hm by (rewrite magnitude_of_mod; euclid).
      destruct (Z.eqb_spec (magnitude_of x) 0); [contradiction|].
      rewrite away_test_bits by assumption.
      destruct (Z.ltb_spec x (2 ^ 31)); [ | lia].
      apply scaled_magnitude_reflect in Hlt; [ | lia | unfold is_jfloat in Jy; lia].
      destruct (Z.ltb_spec y (2 ^ 31)); [ | lia].
      destruct (Z.leb_spec x y); [ | lia]. cbn [andb].
      apply Z.mod_small. lia.
    - rewrite (next_up_negative x Hn). rewrite jnextafterf_bits by assumption.
      assert (magnitude_of x <> 0) as Hm by (rewrite magnitude_of_mod; euclid).
      destruct (Z.eqb_spec (magnitude_of x) 0); [contradiction|].
      rewrite away_test_bits by assumption.
      destruct (Z.ltb_spec x (2 ^ 31)); [lia | ].
      destruct (Z.leb_spec (2 ^ 31) y); [lia | ]. cbn [andb].
      apply Z.mod_small. lia. }
  split; [exact E | ]. rewrite E. apply next_up_step; assumption.
Qed.

(** ** Where the branch test goes the wrong way *)

(** C1: evaluation at [x = -2.0f], [y = -1.0f].  Here [x] is finite and
    [y > x], yet the result [0xC0000001] is below [x]: with both sign bits
    set, [hx > hy] holds exactly when [|x| > |y|], so the branch annotated
    [|arg1| < |arg2|] is taken and the magnitude grows away from [y]. *)
Theorem jnextafterf_both_negative_moves_away :
  is_finite f32_minus_two = true /\
  f32_lt f32_minus_two f32_minus_one = true /\
  jnextafterf f32_minus_two f32_minus_one = 0xc0000001 /\
  f32_lt f32_minus_two (jnextafterf f32_minus_two f32_minus_one) = false /\
  f32_lt (jnextafterf f32_minus_two f32_minus_one) f32_minus_two = true /\
  ~ is_successor f32_minus_two (jnextafterf f32_minus_two f32_minus_one).
Proof.
  repeat split; try reflexivity.
  intros [H _]. vm_compute in H. discriminate H.
Qed.

(** C2: evaluation at equal arguments.  [nextafterf(1.0f, 1.0f)] is
    [0x3F800001], not [1.0f]; [nextafterf(-1.0f, -1.0f)] is [0xBF7FFFFF];
    and for two zeros the result is the smallest subnormal, not
    [direction]. *)
Theorem jnextafterf_equal_arguments_move :
  is_finite f32_one = true /\
  jnextafterf f32_one f32_one = 0x3f800001 /\
  jnextafterf f32_one f32_one <> f32_one /\
  jnextafterf f32_minus_one f32_minus_one = 0xbf7fffff /\
  jnextafterf pos_zero pos_zero = 0x00000001 /\
  jnextafterf pos_zero neg_zero = 0x80000001 /\
  jnextafterf neg_zero neg_zero = 0x80000001.
Proof. repeat split; try reflexivity. discriminate. Qed.

(** With equal arguments the result never is the argument. *)
Lemma jnextafterf_diag_moves (x : jfloat) :
  is_jfloat x -> jnextafterf x x <> x.
Proof.
  intros Jx. rewrite jnextafterf_bits by assumption.
  rewrite magnitude_of_mod. unfold is_jfloat in Jx.
  destruct (Z.eqb_spec (x mod 2 ^ 31) 0).
  - destruct (Z.ltb_spec x (2 ^ 31)); euclid.
  - destruct (away_test _ _); euclid.
Qed.

(** C5: evaluation at [x = 1.0f], [y = 2.0f].  [nextafterf(-x, -y)] is
    [0xBF7FFFFF] while [-nextafterf(x, y)] is [0xBF800001]. *)
Theorem jnextafterf_negation_asymmetric :
  is_finite f32_one = true /\ is_finite f32_two = true /\
  fneg f32_one = f32_minus_one /\ fneg f32_two = f32_minus_two /\
  jnextafterf f32_one f32_two = 0x3f800001 /\
  fneg (jnextafterf f32_one f32_two) = 0xbf800001 /\
  jnextafterf (fneg f32_one) (fneg f32_two) = 0xbf7fffff /\
  jnextafterf (fneg f32_one) (fneg f32_two)
    <> fneg (jnextafterf f32_one f32_two).
Proof. repeat split; try reflexivity. discriminate. Qed.

(** ** The branch test *)

(** C4, as stated, fails at [start = 1.0f], [direction = -2.0f]: the test
    is false although [|start| < |direction|]. *)
Lemma test_is_abs_lt_fails_mixed_signs :
  is_zero f32_one = false /\
  f32_abs_lt f32_one f32_minus_two = true /\
  away_test (jint_of_jfloat f32_one) (jint_of_jfloat f32_minus_two) = false /\
  ~ test_is_abs_lt f32_one f32_minus_two.
Proof.
  repeat split; try reflexivity.
  intros [_ H]. specialize (H eq_refl). vm_compute in H. discriminate H.
Qed.

(** C4, amended: for a nonzero [start] the function increments [hx] by one
    (wrapping to 32 bits) when the test [(hx > 0) ^ (hx > hy)] is true and
    decrements it by one otherwise.  When neither argument is a NaN, both
    sign bits are clear and the patterns differ, the test is true exactly
    when [|start| < |direction|].  When the two sign bits differ the test
    is false and the pattern is decremented: the magnitude goes down by
    one, toward zero. *)
Theorem jnextafterf_branch (start direction : jfloat) :
  is_jfloat start -> is_jfloat direction -> magnitude_of start <> 0 ->
  let hx := jint_of_jfloat start in
  let hy := jint_of_jfloat direction in
  jnextafterf start direction =
    jfloat_of_jint
      (if away_test hx hy then jint_wrap (hx + 1) else jint_wrap (hx - 1)) /\
  (sign_of start = false -> sign_of direction = false ->
   start <> direction -> is_nan start = false -> is_nan direction = false ->
   test_is_abs_lt start direction) /\
  (sign_of start <> sign_of direction ->
   away_test hx hy = false /\
   jnextafterf start direction = start - 1 /\
   magnitude_of (jnextafterf start direction) = magnitude_of start - 1).
Proof.
  intros Js Jd Hm hx hy. subst hx hy.
  pose proof (away_test_bits start direction Js Jd Hm) as Ht.
  pose proof (jnextafterf_bits start direction Js Jd) as Hb.
  destruct (Z.eqb_spec (magnitude_of start) 0); [contradiction|].
  split; [ | split].
  - unfold jnextafterf. cbv zeta. rewrite jint_low31.
    destruct (Z.eqb_spec (magnitude_of start) 0); [contradiction|].
    destruct (away_test _ _); reflexivity.
  - intros Ss Sd Hne Ns Nd. unfold test_is_abs_lt.
    rewrite Ht, f32_abs_lt_magnitude by assumption.
    rewrite !magnitude_of_bits by assumption. rewrite Ss, Sd.
    rewrite sign_of_leb in Ss, Sd by assumption.
    apply Z.leb_gt in Ss. apply Z.leb_gt in Sd.
    destruct (Z.ltb_spec start (2 ^ 31)); [ | lia].
    destruct (Z.ltb_spec direction (2 ^ 31)); [ | lia]. cbn [andb].
    rewrite Z.leb_le, Z.ltb_lt. lia.
  - intros Hs. rewrite !sign_of_leb in Hs by assumption.
    rewrite Hb, Ht. rewrite magnitude_of_mod in *. unfold is_jfloat in *.
    assert ((if start <? 2 ^ 31
             then (direction <? 2 ^ 31) && (start <=? direction)
             else (2 ^ 31 <=? direction) && (direction <? start)) = false) as ->.
    { destruct (Z.ltb_spec start (2 ^ 31)), (Z.ltb_spec direction (2 ^ 31)),
        (Z.leb_spec (2 ^ 31) start), (Z.leb_spec (2 ^ 31) direction);
        try lia; try reflexivity; congruence. }
    split; [reflexivity|].
    assert ((start - 1) mod 2 ^ 32 = start - 1) as -> by euclid.
    split; [reflexivity | rewrite ?magnitude_of_mod; euclid].
Qed.

Lemma jnextafterf_branch_witness :
  let hx := jint_of_jfloat f32_one in
  let hy := jint_of_jfloat f32_two in
  jnextafterf f32_one f32_two =
    jfloat_of_jint
      (if away_test hx hy then jint_wrap (hx + 1) else jint_wrap (hx - 1)) /\
  (sign_of f32_one = false -> sign_of f32_two = false ->
   f32_one <> f32_two -> is_nan f32_one = false -> is_nan f32_two = false ->
   test_is_abs_lt f32_one f32_two) /\
  (sign_of f32_one <> sign_of f32_two ->
   away_test hx hy = false /\
   jnextafterf f32_one f32_two = f32_one - 1 /\
   magnitude_of (jnextafterf f32_one f32_two) = magnitude_of f32_one - 1).
Proof.
  apply (jnextafterf_branch f32_one f32_two).
  - unfold is_jfloat, f32_one. lia.
  - unfold is_jfloat, f32_two. lia.
  - vm_compute. lia.
Defined.

Example test_is_abs_lt_one_two : test_is_abs_lt f32_one f32_two.
Proof. split; reflexivity. Qed.

Example mixed_signs_decrement :
  jnextafterf f32_one f32_minus_two = 0x3f7fffff /\
  jnextafterf f32_minus_one f32_two = 0xbf7fffff.
Proof. split; reflexivity. Qed.

(** * The delegating wrappers *)

(** C9, as stated, fails on [nextafter]: the double-precision routine is not
    computed inside this layer, its result at [(0, 1)] changes with the
    external library. *)
Lemma nextafter_not_computed_in_layer :
  jnextafter lib_first 0 1 = 0 /\
  jnextafter lib_second 0 1 = 1 /\
  ~ computed_in_layer "nextafter" /\
  ~ two_bit_routines.
Proof.
  assert (~ computed_in_layer "nextafter") as Hn.
  { intros H. specialize (H lib_first lib_second).
    cbv [registered gMethods find option_map name fnPtr String.eqb Ascii.eqb
         Bool.eqb] in H.
    injection H as H.
    apply (f_equal (fun f => f 0 1)) in H.
    discriminate H. }
  repeat split; try reflexivity; try exact Hn.
  intros [H _]. exact (Hn H).
Qed.

(** C9, amended: every exposed double-precision operation, [nextafter]
    included, is registered as the corresponding external function applied
    unchanged to its arguments; the only entry of the table computed inside
    this layer is the single-precision [nextafterf]. *)
Theorem strictmath_delegates (lib : fdlibm) :
  Forall (fun n => registered lib n = external_of lib n /\
                   registered lib n <> None) double_ops /\
  ((forall a, jsin lib a = ieee_sin lib a) /\
   (forall a, jcos lib a = ieee_cos lib a) /\
   (forall a, jtan lib a = ieee_tan lib a) /\
   (forall a, jasin lib a = ieee_asin lib a) /\
   (forall a, jacos lib a = ieee_acos lib a) /\
   (forall a, jatan lib a = ieee_atan lib a) /\
   (forall a, jexp lib a = ieee_exp lib a) /\
   (forall a, jlog lib a = ieee_log lib a) /\
   (forall a, jsqrt2 lib a = ieee_sqrt lib a) /\
   (forall a b, jieee_remainder lib a b = ieee_remainder lib a b) /\
   (forall a, jfloor lib a = ieee_floor lib a) /\
   (forall a, jceil lib a = ieee_ceil lib a) /\
   (forall a, jrint lib a = ieee_rint lib a) /\
   (forall a b, jatan2 lib a b = ieee_atan2 lib a b) /\
   (forall a b, jpow lib a b = ieee_pow lib a b) /\
   (forall a, jsinh lib a = ieee_sinh lib a) /\
   (forall a, jtanh lib a = ieee_tanh lib a) /\
   (forall a, jcosh lib a = ieee_cosh lib a) /\
   (forall a, jlog10 lib a = ieee_log10 lib a) /\
   (forall a, jcbrt lib a = ieee_cbrt lib a) /\
   (forall a, jexpm1 lib a = ieee_expm1 lib a) /\
   (forall a b, jhypot lib a b = ieee_hypot lib a b) /\
   (forall a, jlog1p lib a = ieee_log1p lib a) /\
   (forall a b, jnextafter lib a b = ieee_nextafter lib a b)) /\
  registered lib "nextafterf" = Some (FnFF jnextafterf) /\
  computed_in_layer "nextafterf" /\
  Forall (fun m => existsb (String.eqb (name m)) double_ops = true \/
                   name m = "nextafterf"%string) (gMethods lib).
Proof.
  split; [ | split; [ | split; [ | split]]].
  - unfold double_ops.
    repeat (constructor; [split; [reflexivity | discriminate] | ]).
    constructor.
  - repeat split; reflexivity.
  - reflexivity.
  - intros l1 l2. reflexivity.
  - unfold gMethods.
    repeat (constructor; [(left; reflexivity) || (right; reflexivity) | ]).
    constructor.
Qed.

(** * Further properties of [jnextafterf] *)

(** The routine on well-formed patterns, with the test read on the
    patterns themselves. *)
Lemma jnextafterf_cases (a b : jfloat) :
  is_jfloat a -> is_jfloat b ->
  jnextafterf a b =
  if magnitude_of a =? 0 then (if b <? 2 ^ 31 then 0x00000001 else 0x80000001)
  else if a <? 2 ^ 31
       then (if (b <? 2 ^ 31) && (a <=? b) then (a + 1) mod 2 ^ 32 else a - 1)
       else (if (2 ^ 31 <=? b) && (b <? a) then (a + 1) mod 2 ^ 32 else a - 1).
Proof.
  intros Ja Jb. rewrite jnextafterf_bits by assumption.
  destruct (Z.eqb_spec (magnitude_of a) 0) as [E | E]; [reflexivity|].
  rewrite away_test_bits by assumption.
  assert ((a - 1) mod 2 ^ 32 = a - 1) as Hd.
  { rewrite magnitude_of_mod in E. unfold is_jfloat in Ja. euclid. }
  rewrite Hd.
  destruct (a <? 2 ^ 31); reflexivity.
Qed.

Lemma jnextafterf_range (a b : jfloat) : is_jfloat (jnextafterf a b).
Proof.
  unfold jnextafterf. cbv zeta.
  destruct (Z.land (jint_of_jfloat a) 0x7fffffff =? 0);
    apply jfloat_of_jint_range.
Qed.

Lemma predecessor_of_zero (x : jfloat) :
  x = 0x00000000 \/ x = 0x80000000 -> is_successor 0x80000001 x.
Proof.
  intros Hx.
  assert (skey x = 0) as Kx by (destruct Hx as [-> | ->]; reflexivity).
  apply successor_by_key.
  - reflexivity.
  - destruct Hx as [-> | ->]; reflexivity.
  - rewrite Kx. reflexivity.
  - intros z _ _. rewrite Kx. change (skey 0x80000001) with (-1). lia.
Qed.

Lemma predecessor_of_positive (x : jfloat) :
  0 < x <= 0x7f800000 -> is_successor (x - 1) x.
Proof.
  intros Hx. destruct (Z.eq_dec x 1) as [-> | Hne].
  - apply successor_of_zero. left. reflexivity.
  - replace x with (x - 1 + 1) at 2 by lia.
    apply successor_of_positive. lia.
Qed.

Lemma successor_of_neg_inf : is_successor 0xff800000 0xff7fffff.
Proof.
  apply successor_by_key; try reflexivity.
  intros z Hz _.
  change (skey 0xff800000) with (- scaled_magnitude 0x7f800000).
  change (skey 0xff7fffff) with (- scaled_magnitude (0x7f800000 - 1)).
  apply key_gap_negative; [lia | exact Hz].
Qed.

Lemma predecessor_of_negative (x : jfloat) :
  0x80000000 < x < 0xff800000 -> is_successor (x + 1) x.
Proof.
  intros Hx. destruct (Z.eq_dec (x + 1) 0xff800000) as [E | E].
  - rewrite E. replace x with 0xff7fffff by lia. apply successor_of_neg_inf.
  - replace x with (x + 1 - 1) at 2 by lia.
    apply successor_of_negative. lia.
Qed.

Lemma is_successor_lt (x r : jfloat) : is_successor x r -> f32_lt x r = true.
Proof. intros [H _]. exact H. Qed.

Lemma f32_lt_not_nan (a b : jfloat) :
  f32_lt a b = true -> is_nan a = false /\ is_nan b = false.
Proof.
  intros H. split.
  - destruct (is_nan a) eqn:N; [ | reflexivity].
    rewrite f32_lt_nan_l in H by assumption. discriminate.
  - destruct (is_nan b) eqn:N; [ | reflexivity].
    rewrite f32_lt_nan_r in H by assumption. discriminate.
Qed.

(** Whatever [direction] is, the result differs from [start]. *)
Theorem jnextafterf_never_start (start direction : jfloat) :
  is_jfloat start -> is_jfloat direction ->
  jnextafterf start direction <> start.
Proof.
  intros Js Jd. rewrite jnextafterf_bits by assumption.
  rewrite magnitude_of_mod. unfold is_jfloat in Js.
  destruct (Z.eqb_spec (start mod 2 ^ 31) 0).
  - destruct (direction <? 2 ^ 31); euclid.
  - destruct (away_test _ _); euclid.
Qed.

Lemma jnextafterf_never_start_witness :
  jnextafterf f32_one f32_one <> f32_one.
Proof.
  apply (jnextafterf_never_start f32_one f32_one);
    unfold is_jfloat, f32_one; lia.
Defined.

(** From a positive start that is not a NaN (positive infinity included),
    towards any smaller [direction], the pattern is decremented and the
    result is the immediate predecessor of [start]. *)
Theorem jnextafterf_down_from_positive (x y : jfloat) :
  0 < x <= 0x7f800000 -> is_jfloat y -> f32_lt y x = true ->
  jnextafterf x y = x - 1 /\ is_successor (x - 1) x.
Proof.
  intros Hx Jy Hlt.
  assert (is_jfloat x) as Jx by (unfold is_jfloat; lia).
  split; [ | apply predecessor_of_positive; exact Hx].
  destruct (f32_lt_not_nan y x Hlt) as [Ny Nx].
  rewrite f32_lt_skey in Hlt by assumption. apply Z.ltb_lt in Hlt.
  rewrite !skey_bits in Hlt by assumption.
  rewrite jnextafterf_cases by assumption.
  assert (magnitude_of x <> 0) as Hm by (rewrite magnitude_of_mod; euclid).
  destruct (Z.eqb_spec (magnitude_of x) 0); [contradiction|].
  unfold is_jfloat in Jy.
  destruct (Z.ltb_spec x (2 ^ 31)); [ | lia].
  destruct (Z.ltb_spec y (2 ^ 31)); [ | reflexivity].
  apply scaled_magnitude_reflect in Hlt; [ | lia | lia].
  destruct (Z.leb_spec x y); [lia | reflexivity].
Qed.

Lemma jnextafterf_down_from_positive_witness :
  jnextafterf pos_inf f32_one = pos_inf - 1 /\ is_successor (pos_inf - 1) pos_inf.
Proof.
  apply (jnextafterf_down_from_positive pos_inf f32_one).
  - unfold pos_inf. lia.
  - unfold is_jfloat, f32_one. lia.
  - reflexivity.
Defined.

(** A finite [start] never gives a NaN, whatever [direction] is: a NaN
    [direction] is not propagated. *)
Theorem jnextafterf_finite_not_nan (start direction : jfloat) :
  is_jfloat start -> is_finite start = true -> is_jfloat direction ->
  is_nan (jnextafterf start direction) = false.
Proof.
  intros Js Hf Jd. rewrite jnextafterf_cases by assumption.
  rewrite magnitude_of_zero_cases by assumption.
  destruct (finite_cases start Js Hf) as [[-> | ->] | [Hp | Hn]].
  - destruct (direction <? 2 ^ 31); reflexivity.
  - destruct (direction <? 2 ^ 31); reflexivity.
  - destruct (Z.eqb_spec start 0x00000000); [lia|].
    destruct (Z.eqb_spec start 0x80000000); [lia|]. cbn [orb].
    destruct (Z.ltb_spec start (2 ^ 31)); [ | lia].
    destruct ((direction <? 2 ^ 31) && (start <=? direction)).
    + rewrite Z.mod_small by lia.
      rewrite is_nan_bits by (unfold is_jfloat; lia).
      destruct (Z.ltb_spec (start + 1) (2 ^ 31)); lia.
    + rewrite is_nan_bits by (unfold is_jfloat; lia).
      destruct (Z.ltb_spec (start - 1) (2 ^ 31)); lia.
  - destruct (Z.eqb_spec start 0x00000000); [lia|].
    destruct (Z.eqb_spec start 0x80000000); [lia|]. cbn [orb].
    destruct (Z.ltb_spec start (2 ^ 31)); [lia | ].
    destruct ((2 ^ 31 <=? direction) && (direction <? start)).
    + rewrite Z.mod_small by lia.
      rewrite is_nan_bits by (unfold is_jfloat; lia).
      destruct (Z.ltb_spec (start + 1) (2 ^ 31)); lia.
    + rewrite is_nan_bits by (unfold is_jfloat; lia).
      destruct (Z.ltb_spec (start - 1) (2 ^ 31)); lia.
Qed.

Lemma jnextafterf_finite_not_nan_witness :
  is_nan (jnextafterf f32_one 0x7fc00000) = false.
Proof.
  apply (jnextafterf_finite_not_nan f32_one 0x7fc00000).
  - unfold is_jfloat, f32_one. lia.
  - reflexivity.
  - unfold is_jfloat. lia.
Defined.

(** From a finite [start] the routine always moves by exactly one
    representable step: the result is the immediate successor or the
    immediate predecessor of [start], whatever [direction] is. *)
Theorem jnextafterf_one_step (start direction : jfloat) :
  is_jfloat start -> is_finite start = true -> is_jfloat direction ->
  is_successor start (jnextafterf start direction) \/
  is_successor (jnextafterf start direction) start.
Proof.
  intros Js Hf Jd. rewrite jnextafterf_cases by assumption.
  rewrite magnitude_of_zero_cases by assumption.
  destruct (finite_cases start Js Hf) as [Hz | [Hp | Hn]].
  - assert ((start =? 0x00000000) || (start =? 0x80000000) = true) as ->
      by (destruct Hz as [-> | ->]; reflexivity).
    destruct (direction <? 2 ^ 31).
    + left. apply successor_of_zero. exact Hz.
    + right. apply predecessor_of_zero. exact Hz.
  - destruct (Z.eqb_spec start 0x00000000); [lia|].
    destruct (Z.eqb_spec start 0x80000000); [lia|]. cbn [orb].
    destruct (Z.ltb_spec start (2 ^ 31)); [ | lia].
    destruct ((direction <? 2 ^ 31) && (start <=? direction)).
    + left. rewrite Z.mod_small by lia. apply successor_of_positive. exact Hp.
    + right. apply predecessor_of_positive. lia.
  - destruct (Z.eqb_spec start 0x00000000); [lia|].
    destruct (Z.eqb_spec start 0x80000000); [lia|]. cbn [orb].
    destruct (Z.ltb_spec start (2 ^ 31)); [lia | ].
    destruct ((2 ^ 31 <=? direction) && (direction <? start)).
    + right. rewrite Z.mod_small by lia. apply predecessor_of_negative. exact Hn.
    + left. apply successor_of_negative. exact Hn.
Qed.

Lemma jnextafterf_one_step_witness :
  is_successor f32_minus_two (jnextafterf f32_minus_two f32_minus_one) \/
  is_successor (jnextafterf f32_minus_two f32_minus_one) f32_minus_two.
Proof.
  apply (jnextafterf_one_step f32_minus_two f32_minus_one).
  - unfold is_jfloat, f32_minus_two. lia.
  - reflexivity.
  - unfold is_jfloat, f32_minus_one. lia.
Defined.

(** The sign bit of the result: [direction]'s for a zero [start], and
    [start]'s own for any other [start] that is not a NaN, with the
    magnitude changed by exactly one. *)
Theorem jnextafterf_sign (start direction : jfloat) :
  is_jfloat start -> is_jfloat direction -> is_nan start = false ->
  let r := jnextafterf start direction in
  (magnitude_of start = 0 ->
   sign_of r = sign_of direction /\ magnitude_of r = 1) /\
  (magnitude_of start <> 0 ->
   sign_of r = sign_of start /\
   (magnitude_of r = magnitude_of start + 1 \/
    magnitude_of r = magnitude_of start - 1)).
Proof.
  intros Js Jd Ns r. subst r.
  assert (is_jfloat (jnextafterf start direction)) as Jr.
  { apply jnextafterf_range. }
  rewrite is_nan_bits in Ns by assumption.
  revert Jr. rewrite jnextafterf_cases by assumption. intros Jr.
  rewrite !magnitude_of_mod in *.
  rewrite !sign_of_leb by assumption.
  unfold is_jfloat in *.
  destruct (Z.eqb_spec (start mod 2 ^ 31) 0) as [E | E].
  - split; [intros _ | intros H; contradiction].
    destruct (Z.ltb_spec direction (2 ^ 31)), (Z.leb_spec (2 ^ 31) direction);
      try lia; split; reflexivity.
  - split; [intros H; contradiction | intros _].
    destruct (Z.ltb_spec start (2 ^ 31)).
    + assert (start <= 0x7f800000) by (destruct (Z.ltb_spec 0x7f800000 start); [discriminate | lia]).
      destruct ((direction <? 2 ^ 31) && (start <=? direction)).
      * rewrite Z.mod_small by lia.
        destruct (Z.leb_spec (2 ^ 31) (start + 1)), (Z.leb_spec (2 ^ 31) start);
          try lia. split; [reflexivity | left; euclid].
      * destruct (Z.leb_spec (2 ^ 31) (start - 1)), (Z.leb_spec (2 ^ 31) start);
          try lia. split; [reflexivity | right; euclid].
    + assert (start <= 0xff800000) by (destruct (Z.ltb_spec 0xff800000 start); [discriminate | lia]).
      destruct ((2 ^ 31 <=? direction) && (direction <? start)).
      * rewrite Z.mod_small by lia.
        destruct (Z.leb_spec (2 ^ 31) (start + 1)), (Z.leb_spec (2 ^ 31) start);
          try lia. split; [reflexivity | left; euclid].
      * destruct (Z.leb_spec (2 ^ 31) (start - 1)), (Z.leb_spec (2 ^ 31) start);
          try lia; euclid.
Qed.

Lemma jnextafterf_sign_witness :
  let r := jnextafterf neg_inf f32_one in
  (magnitude_of neg_inf = 0 ->
   sign_of r = sign_of f32_one /\ magnitude_of r = 1) /\
  (magnitude_of neg_inf <> 0 ->
   sign_of r = sign_of neg_inf /\
   (magnitude_of r = magnitude_of neg_inf + 1 \/
    magnitude_of r = magnitude_of neg_inf - 1)).
Proof.
  apply (jnextafterf_sign neg_inf f32_one).
  - unfold is_jfloat, neg_inf. lia.
  - unfold is_jfloat, f32_one. lia.
  - reflexivity.
Defined.

(** ** Negation *)

Lemma fneg_bits (b : jfloat) :
  is_jfloat b -> fneg b = if b <? 2 ^ 31 then b + 2 ^ 31 else b - 2 ^ 31.
Proof.
  intros Jb. unfold fneg. pose proof (land_sign_bit b Jb) as Hl.
  unfold is_jfloat in Jb.
  destruct (Z.ltb_spec b (2 ^ 31)), (Z.leb_spec (2 ^ 31) b); try lia.
  - symmetry. apply Z.add_nocarry_lxor. exact Hl.
  - assert (Z.land (b - 2 ^ 31) 0x80000000 = 0) as Hlow.
    { rewrite land_sign_bit by lia.
      destruct (Z.leb_spec (2 ^ 31) (b - 2 ^ 31)); [lia | reflexivity]. }
    apply Z.add_nocarry_lxor in Hlow.
    replace b with (Z.lxor (b - 2 ^ 31) 0x80000000) at 1
      by (rewrite <- Hlow; change 0x80000000 with (2 ^ 31); lia).
    rewrite Z.lxor_assoc, Z.lxor_nilpotent, Z.lxor_0_r. reflexivity.
Qed.

Lemma fneg_range (b : jfloat) : is_jfloat b -> is_jfloat (fneg b).
Proof.
  intros Jb. rewrite fneg_bits by assumption. unfold is_jfloat in *.
  destruct (Z.ltb_spec b (2 ^ 31)); lia.
Qed.

(** Negating both arguments negates the result exactly when [start] is a
    zero or the two sign bits differ; for two arguments of the same sign
    and a nonzero [start] the two sides always differ. *)
Theorem jnextafterf_negation_iff (x y : jfloat) :
  is_jfloat x -> is_jfloat y ->
  jnextafterf (fneg x) (fneg y) = fneg (jnextafterf x y) <->
  magnitude_of x = 0 \/ sign_of x <> sign_of y.
Proof.
  intros Jx Jy.
  pose proof (fneg_range x Jx) as Jnx. pose proof (fneg_range y Jy) as Jny.
  assert (is_jfloat (jnextafterf x y)) as Jr.
  { apply jnextafterf_range. }
  rewrite (fneg_bits (jnextafterf x y)) by assumption.
  revert Jr. rewrite !jnextafterf_cases by assumption.
  rewrite !magnitude_of_mod, !sign_of_leb by assumption.
  revert Jnx Jny. rewrite !fneg_bits by assumption.
  unfold is_jfloat in *. intros Jnx Jny Jr.
  destruct (Z.ltb_spec x (2 ^ 31)), (Z.ltb_spec y (2 ^ 31)),
    (Z.leb_spec (2 ^ 31) x), (Z.leb_spec (2 ^ 31) y); try lia;
  repeat match goal with
         | |- context [Z.eqb ?a ?b] => destruct (Z.eqb_spec a b)
         | |- context [Z.ltb ?a ?b] => destruct (Z.ltb_spec a b)
         | |- context [Z.leb ?a ?b] => destruct (Z.leb_spec a b)
         | _ => progress cbn [andb]
         end;
  cbn [andb] in *;
  try (exfalso; euclid);
  split; intros Hside; try (left; euclid); try (right; congruence);
  try (exfalso; destruct Hside as [Hside | Hside]; [euclid | congruence]);
  try (exfalso; euclid); try euclid.
Qed.

Lemma jnextafterf_negation_iff_witness :
  jnextafterf (fneg f32_one) (fneg f32_minus_two)
    = fneg (jnextafterf f32_one f32_minus_two) <->
  magnitude_of f32_one = 0 \/ sign_of f32_one <> sign_of f32_minus_two.
Proof.
  apply (jnextafterf_negation_iff f32_one f32_minus_two).
  - unfold is_jfloat, f32_one. lia.
  - unfold is_jfloat, f32_minus_two. lia.
Defined.

(** ** Two arguments with the sign bit set *)

(** For a finite nonzero [x] and a [direction] that both have the sign bit
    set, the step goes away from [direction]: below [x] when [direction]
    is greater, above [x] when [direction] is smaller. *)
Theorem jnextafterf_both_negative_away (x y : jfloat) :
  is_jfloat x -> is_jfloat y ->
  sign_of x = true -> sign_of y = true ->
  is_finite x = true -> magnitude_of x <> 0 ->
  (f32_lt x y = true -> is_successor (jnextafterf x y) x) /\
  (f32_lt y x = true -> is_successor x (jnextafterf x y)).
Proof.
  intros Jx Jy Sx Sy Hf Hm.
  rewrite sign_of_leb in Sx, Sy by assumption.
  apply Z.leb_le in Sx. apply Z.leb_le in Sy.
  assert (0x80000000 < x < 0xff800000) as Hn.
  { destruct (finite_cases x Jx Hf) as [[-> | ->] | [Hp | Hn]];
      [discriminate Sx || (exfalso; apply Hm; reflexivity)
      | exfalso; apply Hm; reflexivity | lia | exact Hn]. }
  rewrite jnextafterf_cases by assumption.
  destruct (Z.eqb_spec (magnitude_of x) 0); [contradiction|].
  destruct (Z.ltb_spec x (2 ^ 31)); [lia|].
  destruct (Z.leb_spec (2 ^ 31) y); [ | lia]. cbn [andb].
  assert (forall a b, is_jfloat a -> is_jfloat b -> 2 ^ 31 <= a -> 2 ^ 31 <= b ->
                      f32_lt a b = true -> b < a) as Hord.
  { intros a b Ja Jb La Lb Hlt.
    destruct (f32_lt_not_nan a b Hlt) as [Na Nb].
    rewrite f32_lt_skey in Hlt by assumption. apply Z.ltb_lt in Hlt.
    rewrite !skey_bits in Hlt by assumption.
    unfold is_jfloat in Ja, Jb.
    destruct (Z.ltb_spec a (2 ^ 31)), (Z.ltb_spec b (2 ^ 31)); try lia.
    assert (scaled_magnitude (b - 2 ^ 31) < scaled_magnitude (a - 2 ^ 31)) as Hs by lia.
    apply scaled_magnitude_reflect in Hs; lia. }
  split; intros Hlt.
  - pose proof (Hord x y Jx Jy Sx Sy Hlt).
    destruct (Z.ltb_spec y x); [ | lia].
    rewrite Z.mod_small by lia. apply predecessor_of_negative. exact Hn.
  - pose proof (Hord y x Jy Jx Sy Sx Hlt).
    destruct (Z.ltb_spec y x); [lia | ].
    apply successor_of_negative. exact Hn.
Qed.

Lemma jnextafterf_both_negative_away_witness :
  (f32_lt f32_minus_one f32_minus_two = true ->
   is_successor (jnextafterf f32_minus_one f32_minus_two) f32_minus_one) /\
  (f32_lt f32_minus_two f32_minus_one = true ->
   is_successor f32_minus_one (jnextafterf f32_minus_one f32_minus_two)).
Proof.
  apply (jnextafterf_both_negative_away f32_minus_one f32_minus_two).
  - unfold is_jfloat, f32_minus_one. lia.
  - unfold is_jfloat, f32_minus_two. lia.
  - reflexivity.
  - reflexivity.
  - reflexivity.
  - vm_compute. lia.
Defined.

(** ** Repeated steps on the side where the sign bit is clear *)

Lemma toward_up (n : nat) :
  forall x y : jfloat,
    0 < x -> x + Z.of_nat n = y -> y < 2 ^ 31 ->
    Nat.iter n (toward y) x = y.
Proof.
  induction n as [ | n IH]; intros x y Hx Hn Hy.
  - cbn in *. lia.
  - rewrite Nat.iter_succ_r.
    assert (toward y x = x + 1) as ->.
    { unfold toward.
      rewrite jnextafterf_cases by (unfold is_jfloat; lia).
      assert (magnitude_of x <> 0) as Hm by (rewrite magnitude_of_mod; euclid).
      destruct (Z.eqb_spec (magnitude_of x) 0); [contradiction|].
      destruct (Z.ltb_spec x (2 ^ 31)); [ | lia].
      destruct (Z.ltb_spec y (2 ^ 31)); [ | lia].
      destruct (Z.leb_spec x y); [ | lia]. cbn [andb].
      apply Z.mod_small. lia. }
    apply IH; lia.
Qed.

Lemma toward_down (n : nat) :
  forall x y : jfloat,
    0 <= y -> y + Z.of_nat n = x -> x < 2 ^ 31 ->
    Nat.iter n (toward y) x = y.
Proof.
  induction n as [ | n IH]; intros x y Hy Hn Hx.
  - cbn in *. lia.
  - rewrite Nat.iter_succ_r.
    assert (toward y x = x - 1) as ->.
    { unfold toward.
      rewrite jnextafterf_cases by (unfold is_jfloat; lia).
      assert (magnitude_of x <> 0) as Hm by (rewrite magnitude_of_mod; euclid).
      destruct (Z.eqb_spec (magnitude_of x) 0); [contradiction|].
      destruct (Z.ltb_spec x (2 ^ 31)); [ | lia].
      destruct (Z.ltb_spec y (2 ^ 31)); [ | lia].
      destruct (Z.leb_spec x y); [lia | ]. reflexivity. }
    apply IH; lia.
Qed.

(** When both sign bits are clear and [start] is not a zero, stepping
    repeatedly towards [direction] reaches [direction] itself, after as
    many steps as the two patterns are apart. *)
Theorem toward_reaches_direction (x y : jfloat) :
  0 < x < 2 ^ 31 -> 0 <= y < 2 ^ 31 ->
  Nat.iter (Z.to_nat (Z.abs (y - x))) (toward y) x = y.
Proof.
  intros Hx Hy. destruct (Z.le_gt_cases x y).
  - apply toward_up; lia.
  - apply toward_down; lia.
Qed.

Lemma toward_reaches_direction_witness :
  Nat.iter (Z.to_nat (Z.abs (0x3f800003 - f32_one))) (toward 0x3f800003) f32_one
  = 0x3f800003.
Proof.
  apply (toward_reaches_direction f32_one 0x3f800003); unfold f32_one; lia.
Defined.

Example toward_three_steps :
  Nat.iter 3 (toward 0x3f800003) f32_one = 0x3f800003 /\
  Nat.iter 3 (toward f32_one) 0x3f800003 = f32_one.
Proof. split; reflexivity. Qed.

(** For a positive finite [x], a step towards positive infinity and a step
    towards negative infinity undo each other, in either order. *)
Theorem up_down_round_trip (x : jfloat) :
  0 < x < 0x7f800000 ->
  jnextafterf (jnextafterf x pos_inf) neg_inf = x /\
  jnextafterf (jnextafterf x neg_inf) pos_inf = x.
Proof.
  intros Hx.
  assert (is_jfloat pos_inf) as Jp by (unfold is_jfloat, pos_inf; lia).
  assert (is_jfloat neg_inf) as Jn by (unfold is_jfloat, neg_inf; lia).
  assert (jnextafterf x pos_inf = x + 1) as ->
    by (apply (next_up_positive x Hx)).
  assert (forall a, 0 < a <= 0x7f800000 -> jnextafterf a neg_inf = a - 1) as Hdown.
  { intros a Ha. rewrite jnextafterf_cases by (assumption || (unfold is_jfloat; lia)).
    assert (magnitude_of a <> 0) as Hm by (rewrite magnitude_of_mod; euclid).
    destruct (Z.eqb_spec (magnitude_of a) 0); [contradiction|].
    destruct (Z.ltb_spec a (2 ^ 31)); [ | lia]. reflexivity. }
  rewrite !Hdown by lia. split; [lia | ].
  destruct (Z.eq_dec x 1) as [-> | Hne]; [reflexivity | ].
  change (jnextafterf (x - 1) pos_inf) with (next_up (x - 1)).
  rewrite next_up_positive by lia. lia.
Qed.

Lemma up_down_round_trip_witness :
  jnextafterf (jnextafterf f32_one pos_inf) neg_inf = f32_one /\
  jnextafterf (jnextafterf f32_one neg_inf) pos_inf = f32_one.
Proof.
  apply (up_down_round_trip f32_one). unfold f32_one. lia.
Defined.

(** * The registration table *)

(** The table has 25 entries with pairwise distinct names; the signature
    string of each entry is the one of its function's C type; looking a
    name of the table up gives back that entry's function; and registration
    hands over the whole table. *)
Theorem gMethods_wellformed (lib : fdlibm) :
  NoDup (map name (gMethods lib)) /\
  NELEM (gMethods lib) = 25 /\
  Forall (fun m => signature m = signature_of (fnPtr m)) (gMethods lib) /\
  Forall (fun m => registered lib (name m) = Some (fnPtr m)) (gMethods lib) /\
  (forall jni, register_java_lang_StrictMath jni lib
               = jni "java/lang/StrictMath"%string (gMethods lib) 25).
Proof.
  split; [ | split; [ | split; [ | split]]].
  - unfold gMethods. cbn [map name].
    repeat (constructor;
            [cbn [In]; intros Hin;
             repeat (destruct Hin as [Hin | Hin]; [discriminate Hin | ]);
             exact Hin | ]).
    constructor.
  - reflexivity.
  - unfold gMethods. repeat (constructor; [reflexivity | ]). constructor.
  - unfold gMethods. repeat (constructor; [reflexivity | ]). constructor.
  - intros jni. reflexivity.
Qed.

(** * Remaining edge cases of [jnextafterf] *)

Lemma jnextafterf_up_sign_clear_witness :
  jnextafterf f32_minus_one f32_one = next_up f32_minus_one /\
  is_successor f32_minus_one (jnextafterf f32_minus_one f32_one).
Proof.
  apply (jnextafterf_up_sign_clear f32_minus_one f32_one).
  - unfold is_jfloat, f32_minus_one. lia.
  - reflexivity.
  - unfold is_jfloat, f32_one. lia.
  - reflexivity.
  - reflexivity.
Defined.

(** For a nonzero [arg1], the value computed by [hx += 1] or [hx -= 1]
    fits a [jint] unless both arguments are the pattern [0x7FFFFFFF]:
    that pair is the only one where the signed addition overflows. *)
Theorem jnextafterf_overflow_iff (arg1 arg2 : jfloat) :
  is_jfloat arg1 -> is_jfloat arg2 -> magnitude_of arg1 <> 0 ->
  let hx := jint_of_jfloat arg1 in
  let hy := jint_of_jfloat arg2 in
  is_jint (if away_test hx hy then hx + 1 else hx - 1) <->
  ~ (arg1 = 0x7fffffff /\ arg2 = 0x7fffffff).
Proof.
  intros J1 J2 Hm hx hy. split.
  - intros Hr [-> ->]. subst hx hy. vm_compute in Hr.
    destruct Hr as [_ Hr]. discriminate Hr.
  - intros Hne. apply jnextafterf_no_wrap; assumption.
Qed.

Lemma jnextafterf_overflow_iff_witness :
  let hx := jint_of_jfloat 0x7fffffff in
  let hy := jint_of_jfloat 0x7fffffff in
  is_jint (if away_test hx hy then hx + 1 else hx - 1) <->
  ~ (0x7fffffff = 0x7fffffff /\ 0x7fffffff = 0x7fffffff).
Proof.
  apply (jnextafterf_overflow_iff 0x7fffffff 0x7fffffff).
  - unfold is_jfloat. lia.
  - unfold is_jfloat. lia.
  - vm_compute. lia.
Defined.

(** From an infinite [start] the result never is that infinity: it is the
    largest finite value of the same sign, or the NaN one pattern above
    the infinity.  From positive infinity the NaN comes out when
    [direction] is positive infinity or a NaN with the sign bit clear;
    from negative infinity, when [direction] has the sign bit set and a
    pattern below negative infinity's, that is, a negative zero or a
    negative finite value. *)
Theorem jnextafterf_from_infinity (direction : jfloat) :
  is_jfloat direction ->
  jnextafterf pos_inf direction =
    (if negb (sign_of direction) && negb (is_finite direction)
     then 0x7f800001 else 0x7f7fffff) /\
  jnextafterf neg_inf direction =
    (if sign_of direction && is_finite direction
     then 0xff800001 else 0xff7fffff).
Proof.
  intros Jd.
  rewrite !jnextafterf_cases
    by (assumption || (unfold is_jfloat, pos_inf, neg_inf; lia)).
  unfold pos_inf, neg_inf.
  change (magnitude_of 0x7f800000 =? 0) with false.
  change (magnitude_of 0xff800000 =? 0) with false.
  change (0x7f800000 <? 2 ^ 31) with true.
  change (0xff800000 <? 2 ^ 31) with false.
  cbv iota.
  rewrite is_finite_magnitude, (magnitude_of_bits direction Jd),
    (sign_of_leb direction Jd).
  unfold is_jfloat in Jd.
  split.
  - destruct (Z.ltb_spec direction (2 ^ 31)), (Z.leb_spec (2 ^ 31) direction);
      try lia; cbn [negb andb].
    + destruct (Z.leb_spec 0x7f800000 direction),
        (Z.ltb_spec direction 0x7f800000); try lia; reflexivity.
    + reflexivity.
  - destruct (Z.leb_spec (2 ^ 31) direction); cbn [negb andb]; [ | reflexivity].
    destruct (Z.ltb_spec direction 0xff800000),
      (Z.ltb_spec (direction - 2 ^ 31) 0x7f800000); try lia; reflexivity.
Qed.

Lemma jnextafterf_from_infinity_witness :
  jnextafterf pos_inf neg_inf =
    (if negb (sign_of neg_inf) && negb (is_finite neg_inf)
     then 0x7f800001 else 0x7f7fffff) /\
  jnextafterf neg_inf neg_inf =
    (if sign_of neg_inf && is_finite neg_inf
     then 0xff800001 else 0xff7fffff).
Proof.
  apply (jnextafterf_from_infinity neg_inf).
  unfold is_jfloat, neg_inf. lia.
Defined.

Example infinity_steps :
  jnextafterf pos_inf pos_inf = 0x7f800001 /\
  jnextafterf neg_inf neg_inf = 0xff7fffff /\
  jnextafterf neg_inf f32_minus_one = 0xff800001 /\
  jnextafterf neg_inf f32_one = 0xff7fffff /\
  jnextafterf pos_inf f32_one = 0x7f7fffff.
Proof. repeat split; reflexivity. Qed.
